(** * winkeysafe: custody of a DPAPI-protected master key

    A shallow embedding of the Go package [winkeysafe] and the proofs of
    the properties its specification states.  The repository holds four
    generations of the package, each with its own entry point:

    - [WordKey]   : [New], [GetKey], [DestroyKey] (24-word key, memguard);
    - [ByteKey]   : [Get] (32-character key, returned to the caller);
    - [AccessBytes] : [AccessKey] returning [([]byte, error)];
    - [AccessMsg] : [AccessKey] returning [(bool, string)], [GetKey].

    Go strings and byte slices are both sequences of bytes; they are
    modelled by [string], whose characters are the bytes. *)

From Stdlib Require Import ZArith NArith Ascii String List Lia.
From stdpp Require Import base option list gmap strings.

Local Open Scope string_scope.
Local Open Scope list_scope.

(** ** The machine: disk, guarded memory, faults *)

(** What a call does to the outside, in order. *)
Inductive event : Type :=
  | EvStat (path : string)                   (* os.Stat *)
  | EvReadFile (path : string)               (* os.ReadFile *)
  | EvWriteFile (path : string) (data : string)  (* os.WriteFile, mode 0600 *)
  | EvLog (text : string).                   (* log.Printf / log.Println *)

(** A [*memguard.LockedBuffer]: the guarded bytes and whether the pages
    are writable (after [Melt]) or read-only (after [Freeze]). *)
Record LockedBuffer : Type := mkBuffer {
  buf_bytes : string;
  buf_mutable : bool
}.

(** The files.  The operating system takes a path to the file it names
    (current directory, [.] and [..], letter case, links): [resolve] is
    that function, and two paths name one file exactly when they resolve
    alike.  [files] holds the contents of every existing file under the
    name its paths resolve to.  The package reaches the files by path
    only: looking up, writing and removing go through [resolve]. *)
Record Disk : Type := mkDisk {
  files : gmap string string;
  resolve : string -> string
}.

Definition same_file (d : Disk) (a b : string) : Prop :=
  resolve d a = resolve d b.

#[global] Instance disk_lookup : Lookup string string Disk :=
  fun name d => files d !! resolve d name.
#[global] Instance disk_insert : Insert string string Disk :=
  fun name data d => mkDisk (<[resolve d name := data]> (files d)) (resolve d).
#[global] Instance disk_delete : Delete string Disk :=
  fun name d => mkDisk (delete (resolve d name) (files d)) (resolve d).

(** No file yet, and every path the name of a file of its own. *)
#[global] Instance disk_empty : Empty Disk := mkDisk ∅ id.

(** How a file operation ends.  [os.WriteFile] opens the file, which
    creates or truncates it, writes the data and closes the file; when
    it fails, it has either not opened the file, and the disk is as it
    was, or opened it, and the file is left with the bytes that were
    written.  [os.ReadFile] changes nothing either way. *)
Inductive fault : Type :=
  | NoFault
  | Fails                        (* before the file is open *)
  | FailsAfter (written : nat).  (* the file open, [written] bytes in it *)

(** The state a call runs in.  [disk] holds the files.  [secureKey] is
    the package variable of that name ([None] is the nil pointer).
    [faults] schedules the outcome of the coming [os.ReadFile] and
    [os.WriteFile] calls, one entry per call; an exhausted schedule
    means no more faults.  [draws] counts the values taken from the
    random source. *)
Record World : Type := mkWorld {
  disk : Disk;
  secureKey : option LockedBuffer;
  trace : list event;
  faults : list fault;
  draws : nat
}.

Definition set_disk (d : Disk) (w : World) : World :=
  mkWorld d (secureKey w) (trace w) (faults w) (draws w).
Definition set_secureKey (k : option LockedBuffer) (w : World) : World :=
  mkWorld (disk w) k (trace w) (faults w) (draws w).
Definition set_faults (f : list fault) (w : World) : World :=
  mkWorld (disk w) (secureKey w) (trace w) f (draws w).
Definition set_draws (n : nat) (w : World) : World :=
  mkWorld (disk w) (secureKey w) (trace w) (faults w) n.
Definition log_event (e : event) (w : World) : World :=
  mkWorld (disk w) (secureKey w) (trace w ++ [e]) (faults w) (draws w).

(** The collaborators the package calls but does not define: the two
    DPAPI primitives ([None]: the call returned an error), the generator
    behind [math/rand] and the system source behind [crypto/rand]
    ([None]: [rand.Read] returned an error). *)
Record Platform : Type := mkPlatform {
  CryptProtectData : string -> option string;
  CryptUnprotectData : string -> option string;
  math_rand : nat -> N;
  crypto_rand : nat -> option ascii
}.

(** Ways a call ends without returning to its caller. *)
Inductive panic : Type :=
  | NilDereference      (* method call through a nil pointer *)
  | IndexOutOfRange     (* s[i] with i outside the slice *)
  | InvalidArgument     (* rand.Intn with n <= 0 *)
  | FatalExit.          (* log.Fatalf: os.Exit(1) *)

Inductive outcome (A : Type) : Type :=
  | Returns (a : A) (w : World)
  | Panics (p : panic) (w : World).
Arguments Returns {A} a w.
Arguments Panics {A} p w.

(** Computations of the package: state passing with panics. *)
Definition M (A : Type) : Type := World -> outcome A.

Definition ret {A} (a : A) : M A := fun w => Returns a w.
Definition bind {A B} (m : M A) (k : A -> M B) : M B :=
  fun w => match m w with
           | Returns a w' => k a w'
           | Panics p w' => Panics p w'
           end.
Definition raise {A} (p : panic) : M A := fun w => Panics p w.
Definition gets {A} (f : World -> A) : M A := fun w => Returns (f w) w.
Definition modify (f : World -> World) : M unit := fun w => Returns tt (f w).

Declare Scope go_scope.
Delimit Scope go_scope with go.
Notation "'let*' x ':=' m 'in' k" := (bind m (fun x => k))
  (at level 10, x name, m at level 100, k at level 200) : go_scope.
Notation "'run' m 'in' k" := (bind m (fun _ => k))
  (at level 10, m at level 100, k at level 200) : go_scope.
Local Open Scope go_scope.

(** [defer d] around [body]: [d] runs when [body] returns, and also
    while a panic of [body] unwinds. *)
Definition defer {A} (d : M unit) (body : M A) : M A :=
  fun w => match body w with
           | Returns a w1 =>
               match d w1 with
               | Returns _ w2 => Returns a w2
               | Panics p w2 => Panics p w2
               end
           | Panics p w1 =>
               match d w1 with
               | Returns _ w2 => Panics p w2
               | Panics p' w2 => Panics p' w2
               end
           end.

(** *** Errors

    The package builds its errors with [errors.New] and [fmt.Errorf]; a
    constructor stands for a message template, its argument for the
    [%s].  The wrapped cause ([%w], [%v]) is the collaborator's own
    error and is not kept. *)
Inductive error : Type :=
  | ErrWordsListNotInitialized
      (* "wordsList is not initialized. Call New() before AccessKey()" *)
  | ErrBothKeyFiles (plainTextFile : string)
      (* New: "copy %s to a safe place and remove it from this server"
         Get: "can't have both plaintext and cipher keys on your server,
               copy %s to a safe place and remove it from this server"
         AccessKey: "both key.dat and key.txt exist. Copy key.txt to a
               safe place and remove it from this server" *)
  | ErrFailedToRead (file : string)        (* "failed to read %s: %w" *)
  | ErrFailedToDecrypt (file : string)     (* "failed to decrypt %s: %w" *)
  | ErrNot24ValidWords (content : string)
      (* "%s must contain exactly 24 valid words from the word list" *)
  | ErrNot32Characters (content : string)
      (* "%s must contain a key that is 32 characters" *)
  | ErrFailedToEncrypt (what : string)     (* "failed to encrypt %s: %w" *)
  | ErrFailedToEncryptGenerated            (* "failed to encrypt generated key: %w" *)
  | ErrFailedToSave (file : string)        (* "failed to save %s: %w" *)
  | ErrFailedToWrite (file : string)       (* "failed to write %s: %w" *)
  | ErrPlaintextEncrypted
      (* "key.txt successfully encrypted to key.dat. Remove key.txt from
         this server and store it safely" *)
  | ErrKeyNotLoaded                        (* "key not loaded into memory" *)
  | ErrRandomIndex                         (* "Failed to generate random index: %v" *)
  | ErrRandom.                             (* the error of rand.Read *)

(** *** The operating system *)

(** [os.Stat]: succeeds exactly on the files that exist. *)
Definition fileExists (filename : string) : M bool :=
  fun w => Returns (bool_decide (is_Some (disk w !! filename)))
                   (log_event (EvStat filename) w).

(** The fault scheduled for the file operation number [k] from now,
    whether the next operation fails, and the schedule once it is
    done. *)
Definition nth_fault (k : nat) (w : World) : fault := nth k (faults w) NoFault.

Definition next_fault (w : World) : bool :=
  match nth_fault 0 w with
  | NoFault => false
  | _ => true
  end.

Definition after_io (e : event) (w : World) : World :=
  set_faults (tl (faults w)) (log_event e w).

(** [os.ReadFile]: the contents, or [None] for [err != nil]; a file
    that does not exist is an error as well. *)
Definition ReadFile (name : string) : M (option string) :=
  fun w => if next_fault w then Returns None (after_io (EvReadFile name) w)
           else Returns (disk w !! name) (after_io (EvReadFile name) w).

(** What a failing [os.WriteFile name data] leaves behind. *)
Definition interrupted (name data : string) (w : World) : World :=
  match nth_fault 0 w with
  | FailsAfter written =>
      set_disk (<[name := String.substring 0 written data]> (disk w))
               (after_io (EvWriteFile name data) w)
  | _ => after_io (EvWriteFile name data) w
  end.

(** [os.WriteFile name data 0600]: [true] for [err == nil]. *)
Definition WriteFile (name data : string) : M bool :=
  fun w => if next_fault w then Returns false (interrupted name data w)
           else Returns true (set_disk (<[name := data]> (disk w))
                                       (after_io (EvWriteFile name data) w)).

(** *** memguard *)

(** [memguard.NewBufferFromBytes]: the new buffer is sealed read-only. *)
Definition NewBufferFromBytes (src : string) : LockedBuffer :=
  mkBuffer src false.

(** [secureKey.Melt()]: the method reads through its receiver, so a nil
    [secureKey] panics. *)
Definition Melt : M unit :=
  fun w => match secureKey w with
           | None => Panics NilDereference w
           | Some b => Returns tt (set_secureKey (Some (mkBuffer (buf_bytes b) true)) w)
           end.

(** [secureKey.Freeze()]. *)
Definition Freeze : M unit :=
  fun w => match secureKey w with
           | None => Panics NilDereference w
           | Some b => Returns tt (set_secureKey (Some (mkBuffer (buf_bytes b) false)) w)
           end.

(** [secureKey.Destroy()]: wipes the buffer and releases its pages. *)
Definition Destroy : M unit :=
  fun w => match secureKey w with
           | None => Panics NilDereference w
           | Some b => Returns tt (set_secureKey (Some (mkBuffer "" false)) w)
           end.

(** ** Go's strings

    [strings.Fields] splits around runs of white space "as defined by
    [unicode.IsSpace]", reading the string as UTF-8 the way a [range]
    loop does: a byte that starts no valid encoding is the rune U+FFFD
    of width one. *)

Definition byte_val (c : ascii) : N := N_of_ascii c.

Definition RuneError : N := 0xFFFD.

(** Continuation bytes lie between [locb] and [hicb]. *)
Definition is_cont (c : ascii) : bool :=
  (0x80 <=? byte_val c)%N && (byte_val c <=? 0xBF)%N.

(** [runtime.decoderune] at the head [c0] of the string [String c0 t0],
    with the ASCII case of the [range] loop in front: the rune, the
    bytes that encode it, and the rest of the string. *)
Definition decoderune (c0 : ascii) (t0 : string) : N * string * string :=
  let invalid := (RuneError, String c0 "", t0) in
  let b0 := byte_val c0 in
  if (b0 <? 0x80)%N then (b0, String c0 "", t0)
  else if (0xC0 <=? b0)%N && (b0 <? 0xE0)%N then
    match t0 with
    | String c1 t1 =>
        if is_cont c1 then
          let r := N.lor (N.shiftl (N.land b0 0x1F) 6) (N.land (byte_val c1) 0x3F) in
          if (0x7F <? r)%N then (r, String c0 (String c1 ""), t1) else invalid
        else invalid
    | _ => invalid
    end
  else if (0xE0 <=? b0)%N && (b0 <? 0xF0)%N then
    match t0 with
    | String c1 (String c2 t2) =>
        if is_cont c1 && is_cont c2 then
          let r := N.lor (N.lor (N.shiftl (N.land b0 0x0F) 12)
                                (N.shiftl (N.land (byte_val c1) 0x3F) 6))
                         (N.land (byte_val c2) 0x3F) in
          if (0x7FF <? r)%N && negb ((0xD800 <=? r)%N && (r <=? 0xDFFF)%N)
          then (r, String c0 (String c1 (String c2 "")), t2) else invalid
        else invalid
    | _ => invalid
    end
  else if (0xF0 <=? b0)%N && (b0 <? 0xF8)%N then
    match t0 with
    | String c1 (String c2 (String c3 t3)) =>
        if is_cont c1 && is_cont c2 && is_cont c3 then
          let r := N.lor (N.lor (N.lor (N.shiftl (N.land b0 0x07) 18)
                                       (N.shiftl (N.land (byte_val c1) 0x3F) 12))
                                (N.shiftl (N.land (byte_val c2) 0x3F) 6))
                         (N.land (byte_val c3) 0x3F) in
          if (0xFFFF <? r)%N && (r <=? 0x10FFFF)%N
          then (r, String c0 (String c1 (String c2 (String c3 ""))), t3) else invalid
        else invalid
    | _ => invalid
    end
  else invalid.

(** The runes of a string in order, each with its bytes. *)
Fixpoint runes_fuel (fuel : nat) (s : string) : list (N * string) :=
  match fuel, s with
  | S k, String c0 t0 =>
      let '(r, enc, rest) := decoderune c0 t0 in (r, enc) :: runes_fuel k rest
  | _, _ => []
  end.

Definition runes (s : string) : list (N * string) :=
  runes_fuel (String.length s) s.

(** [unicode.IsSpace]: the Latin-1 cases of its switch, then the table
    [White_Space]. *)
Definition IsSpace (r : N) : bool :=
  if (r <=? 0xFF)%N then
    (r =? 0x09)%N || (r =? 0x0A)%N || (r =? 0x0B)%N || (r =? 0x0C)%N
    || (r =? 0x0D)%N || (r =? 0x20)%N || (r =? 0x85)%N || (r =? 0xA0)%N
  else
    (r =? 0x1680)%N || ((0x2000 <=? r)%N && (r <=? 0x200A)%N)
    || (r =? 0x2028)%N || (r =? 0x2029)%N || (r =? 0x202F)%N
    || (r =? 0x205F)%N || (r =? 0x3000)%N.

(** The loop of [strings.FieldsFunc]: [cur] is the field being read
    ([None] between fields), a white-space rune closes it. *)
Fixpoint spans (f : N -> bool) (rs : list (N * string)) (cur : option string)
  : list string :=
  match rs with
  | [] => match cur with Some field => [field] | None => [] end
  | (r, enc) :: rs' =>
      if f r then
        match cur with
        | Some field => field :: spans f rs' None
        | None => spans f rs' None
        end
      else
        spans f rs' (Some (match cur with
                           | Some field => field +:+ enc
                           | None => enc
                           end))
  end.

Definition FieldsFunc (s : string) (f : N -> bool) : list string :=
  spans f (runes s) None.

(** [strings.Fields]. *)
Definition Fields (s : string) : list string := FieldsFunc s IsSpace.

(** [strings.Join]. *)
Fixpoint Join (elems : list string) (sep : string) : string :=
  match elems with
  | [] => ""
  | [e] => e
  | e :: rest => e +:+ sep +:+ Join rest sep
  end.

(** A dictionary entry that reads back as one field: not empty, and no
    rune of it is white space. *)
Definition is_token (w : string) : bool :=
  negb (String.eqb w "") && forallb (fun re => negb (IsSpace re.1)) (runes w).

(** The bytes of the runes, put back together. *)
Definition concat_enc (rs : list (N * string)) : string :=
  foldr (fun re acc => re.2 +:+ acc) "" rs.

(** The two separators [formatWords] and [strings.Join] write. *)
Definition is_sep (c : ascii) : Prop := c = " "%char \/ c = "010"%char.

(** *** Shared pieces of the four generations *)

(** [windows.DataBlob{Size: uint32(len(data)), Data: &data[0]}]: taking
    the address of the first byte panics on an empty slice, and the
    length reaches DPAPI as a [uint32]. *)
Fixpoint take_bytes (n : nat) (s : string) : string :=
  match n, s with
  | S k, String c t => String c (take_bytes k t)
  | _, _ => ""
  end.

Definition blob_bytes (data : string) : string :=
  take_bytes (N.to_nat (N.of_nat (String.length data) mod 2 ^ 32)) data.

Definition DataBlob (data : string) : M string :=
  match data with
  | "" => raise IndexOutOfRange
  | _ => ret (blob_bytes data)
  end.

(** [s[i]] on a string or slice. *)
Definition index {A} (l : list A) (i : N) : M A :=
  match l !! N.to_nat i with
  | Some x => ret x
  | None => raise IndexOutOfRange
  end.

(** [rand.Intn] of [math/rand]. *)
Definition Intn (P : Platform) (n : Z) : M Z :=
  if (n <=? 0)%Z then raise InvalidArgument
  else fun w => Returns (Z.of_N (math_rand P (draws w)) mod n)%Z
                        (set_draws (S (draws w)) w).

(** [rand.Read] of [crypto/rand] into a slice of one byte. *)
Definition rand_Read (P : Platform) : M (option ascii) :=
  fun w => Returns (crypto_rand P (draws w)) (set_draws (S (draws w)) w).

(** ** [New], [GetKey], [DestroyKey]: the 24-word key *)

Module WordKey.
Section Package.
Variable P : Platform.

(** The package variable [wordsList], set by the caller. *)
Variable wordsList : list string.

Definition GetKey : M (string * option error) :=
  run Melt in
  defer Freeze
    (let* key := gets secureKey in
     match key with
     | None => ret ("", Some ErrKeyNotLoaded)
     | Some b => ret (buf_bytes b, None)
     end).

Definition DestroyKey : M unit :=
  let* key := gets secureKey in
  match key with
  | Some _ => run Destroy in modify (set_secureKey None)
  | None => ret tt
  end.

(** The [wordSet] that [validateWords] builds from [wordsList]. *)
Definition wordSet : gmap string unit :=
  foldl (fun set word => <[word := tt]> set) ∅ wordsList.

Fixpoint all_exist (set : gmap string unit) (words : list string) : bool :=
  match words with
  | [] => true
  | word :: rest =>
      match set !! word with
      | None => false
      | Some _ => all_exist set rest
      end
  end.

Definition validateWords (words : list string) : bool :=
  all_exist wordSet words.

(** The loop of [formatWords] from index [i] on. *)
Fixpoint formatWords_from (i : nat) (words : list string) : string :=
  match words with
  | [] => ""
  | word :: rest =>
      word +:+ (if ((i + 1) mod 6 =? 0)%nat then String "010" "" else " ")
           +:+ formatWords_from (S i) rest
  end.

Definition formatWords (words : list string) : string :=
  formatWords_from 0 words.

Definition encryptData (data : string) : M (option string) :=
  let* inBlob := DataBlob data in
  ret (CryptProtectData P inBlob).

Definition decryptData (data : string) : M (option string) :=
  let* inBlob := DataBlob data in
  ret (CryptUnprotectData P inBlob).

(** The loop of [generate256BitsKey]: [n] more words. *)
Fixpoint draw_words (n : nat) : M (list string) :=
  match n with
  | O => ret []
  | S k =>
      let* i := Intn P (Z.of_nat (length wordsList)) in
      let* word := index wordsList (Z.to_N i) in
      let* rest := draw_words k in
      ret (word :: rest)
  end.

Definition generate256BitsKey : M (list string) :=
  if (length wordsList =? 0)%nat then ret [] else draw_words 24.

Definition New (cipherFile plainTextFile : string) : M (string * option error) :=
  if (length wordsList =? 0)%nat then ret ("", Some ErrWordsListNotInitialized) else
  let* keyDatExists := fileExists cipherFile in
  let* keyTxtExists := fileExists plainTextFile in
  if keyDatExists && keyTxtExists then
    ret ("", Some (ErrBothKeyFiles plainTextFile))
  else if keyDatExists then
    let* read := ReadFile cipherFile in
    match read with
    | None => ret ("", Some (ErrFailedToRead "key.dat"))
    | Some encryptedKey =>
        let* decrypted := decryptData encryptedKey in
        match decrypted with
        | None => ret ("", Some (ErrFailedToDecrypt "key.dat"))
        | Some decryptedKey =>
            run modify (set_secureKey (Some (NewBufferFromBytes decryptedKey))) in
            ret ("", None)
        end
    end
  else if keyTxtExists then
    let* read := ReadFile plainTextFile in
    match read with
    | None => ret ("", Some (ErrFailedToRead plainTextFile))
    | Some plainTextKey =>
        let words := Fields plainTextKey in
        if negb (length words =? 24)%nat || negb (validateWords words) then
          ret ("", Some (ErrNot24ValidWords plainTextKey))
        else
          let* encrypted := encryptData (Join words " ") in
          match encrypted with
          | None => ret ("", Some (ErrFailedToEncrypt plainTextKey))
          | Some encryptedKey =>
              let* saved := WriteFile cipherFile encryptedKey in
              if negb saved then ret ("", Some (ErrFailedToSave cipherFile))
              else ret ("", None)
          end
    end
  else
    let* words := generate256BitsKey in
    let* written := WriteFile plainTextFile (Join words " ") in
    if negb written then ret ("", Some (ErrFailedToWrite plainTextFile)) else
    let* read := ReadFile plainTextFile in
    match read with
    | None => ret ("", Some (ErrFailedToRead plainTextFile))
    | Some plainTextKey =>
        let* encrypted := encryptData plainTextKey in
        match encrypted with
        | None => ret ("", Some ErrFailedToEncryptGenerated)
        | Some encryptedKey =>
            let* saved := WriteFile cipherFile encryptedKey in
            if negb saved then ret ("", Some (ErrFailedToSave cipherFile))
            else ret (formatWords words, None)
        end
    end.
End Package.
End WordKey.

(** ** [Get]: the 32-character key handed to the caller *)

Module ByteKey.
Section Package.
Variable P : Platform.

Definition characters : string :=
  "abcdefghijklmnopqrstuvwxyzABCDEFGHIJKLMNOPQRSTUVWXYZ0123456789!@#$%^&*(){[]};:.,/?`~".

(** The loop of [generate256BitsKey]: [n] more characters. *)
Fixpoint draw_chars (n : nat) : M string :=
  match n with
  | O => ret ""
  | S k =>
      let x := 0%Z in
      let y := (Z.of_nat (String.length characters) - 1)%Z in
      let* r := Intn P (y - x + 1) in
      let randomIndex := (r + x)%Z in
      let* c := index (list_ascii_of_string characters) (Z.to_N randomIndex) in
      let* rest := draw_chars k in
      ret (String c rest)
  end.

Definition generate256BitsKey (size : Z) : M string :=
  draw_chars (Z.to_nat size).

Definition encryptDataUsingDPAPI (data : string) : M (option string) :=
  let* inBlob := DataBlob data in
  ret (CryptProtectData P inBlob).

Definition decryptDataUsingDPAPI (data : string) : M (option string) :=
  let* inBlob := DataBlob data in
  ret (CryptUnprotectData P inBlob).

(** The first result is the [[]byte]; [None] is the nil slice. *)
Definition Get (cipherFile plainTextFile : string)
  : M (option string * option error) :=
  let* keyDatExists := fileExists cipherFile in
  let* keyTxtExists := fileExists plainTextFile in
  if keyDatExists && keyTxtExists then
    ret (None, Some (ErrBothKeyFiles plainTextFile))
  else if keyDatExists then
    let* read := ReadFile cipherFile in
    match read with
    | None => ret (None, Some (ErrFailedToRead cipherFile))
    | Some encryptedKey =>
        let* decrypted := decryptDataUsingDPAPI encryptedKey in
        match decrypted with
        | None => ret (None, Some (ErrFailedToDecrypt cipherFile))
        | Some decryptedKey => ret (Some decryptedKey, None)
        end
    end
  else if keyTxtExists then
    let* read := ReadFile plainTextFile in
    match read with
    | None => ret (None, Some (ErrFailedToRead plainTextFile))
    | Some plainTextKey =>
        if negb (String.length plainTextKey =? 32)%nat then
          ret (None, Some (ErrNot32Characters plainTextKey))
        else
          let* encrypted := encryptDataUsingDPAPI plainTextKey in
          match encrypted with
          | None => ret (None, Some (ErrFailedToEncrypt plainTextKey))
          | Some encryptedKey =>
              let* saved := WriteFile cipherFile encryptedKey in
              if negb saved then ret (None, Some (ErrFailedToSave cipherFile))
              else ret (None, Some (ErrBothKeyFiles plainTextFile))
          end
    end
  else
    let* plainTextKey := generate256BitsKey 32 in
    let* written := WriteFile plainTextFile plainTextKey in
    if negb written then ret (None, Some (ErrFailedToWrite plainTextFile)) else
    let* encrypted := encryptDataUsingDPAPI plainTextKey in
    match encrypted with
    | None => ret (None, Some ErrFailedToEncryptGenerated)
    | Some encryptedKey =>
        let* saved := WriteFile cipherFile encryptedKey in
        if negb saved then ret (None, Some (ErrFailedToSave cipherFile))
        else ret (Some plainTextKey, None)
    end.
End Package.
End ByteKey.

(** ** [AccessKey]: fixed file names, key drawn from [crypto/rand] *)

(** The character pool and [secureRandomInt] are the same in both
    generations of [AccessKey]. *)
Definition charPool : string :=
  "abcdefghijklmnopqrstuvwxyzABCDEFGHIJKLMNOPQRSTUVWXYZ0123456789!@#$%^&*()-_=+[]{}|;:',.<>?/`~".

Definition secureRandomInt (P : Platform) (max : Z) : M (Z * option error) :=
  if (max <=? 0)%Z then ret (0%Z, None) else
  let* randomBytes := rand_Read P in
  match randomBytes with
  | None => ret (0%Z, Some ErrRandom)
  | Some b => ret (Z.rem (Z.of_N (byte_val b)) max, None)
  end.

Module AccessBytes.
Section Package.
Variable P : Platform.

Definition encryptData (data : string) : M (option string) :=
  let* inBlob := DataBlob data in
  ret (CryptProtectData P inBlob).

Definition decryptData (data : string) : M (option string) :=
  let* inBlob := DataBlob data in
  ret (CryptUnprotectData P inBlob).

(** The loop of [generate256BitsKey]: [n] more characters.  The
    function is declared to return [(string, error)] and ends in
    [return string(key)]; the missing second result is read as [nil]. *)
Fixpoint draw_chars (charPoolLength : Z) (n : nat) : M (string * option error) :=
  match n with
  | O => ret ("", None)
  | S k =>
      let* drawn := secureRandomInt P charPoolLength in
      match drawn with
      | (_, Some _) => ret ("", Some ErrRandomIndex)
      | (randomIndex, None) =>
          let* c := index (list_ascii_of_string charPool) (Z.to_N randomIndex) in
          let* rest := draw_chars charPoolLength k in
          match rest with
          | (_, Some err) => ret ("", Some err)
          | (key, None) => ret (String c key, None)
          end
      end
  end.

Definition generate256BitsKey : M (string * option error) :=
  let keyLength := 32%nat in
  let charPoolLength := Z.of_nat (String.length charPool) in
  draw_chars charPoolLength keyLength.

(** The file gives [fmt.Sprintf] strings where an [error] is due and
    binds the generator's two results to the one name [words]; the
    strings are read as the errors they describe and [words] as the
    generated string. *)
Definition AccessKey : M (option string * option error) :=
  let* keyDatExists := fileExists "key.dat" in
  let* keyTxtExists := fileExists "key.txt" in
  if keyDatExists && keyTxtExists then
    ret (None, Some (ErrBothKeyFiles "key.txt"))
  else if keyDatExists then
    let* read := ReadFile "key.dat" in
    match read with
    | None => ret (None, Some (ErrFailedToRead "key.dat"))
    | Some encryptedKey =>
        let* decrypted := decryptData encryptedKey in
        match decrypted with
        | None => ret (None, Some (ErrFailedToDecrypt "key.dat"))
        | Some decryptedKey => ret (Some decryptedKey, None)
        end
    end
  else if keyTxtExists then
    let* read := ReadFile "key.txt" in
    match read with
    | None => ret (None, Some (ErrFailedToRead "key.txt"))
    | Some plainTextKey =>
        let* encrypted := encryptData plainTextKey in
        match encrypted with
        | None => ret (None, Some (ErrFailedToEncrypt "key.txt"))
        | Some encryptedKey =>
            let* saved := WriteFile "key.dat" encryptedKey in
            if negb saved then ret (None, Some (ErrFailedToSave "key.dat"))
            else ret (Some plainTextKey, Some ErrPlaintextEncrypted)
        end
    end
  else
    let* generated := generate256BitsKey in
    let words := generated.1 in
    let* written := WriteFile "key.txt" words in
    if negb written then ret (None, Some (ErrFailedToWrite "key.txt")) else
    let* read := ReadFile "key.txt" in
    match read with
    | None => ret (None, Some (ErrFailedToRead "key.txt"))
    | Some plainTextKey =>
        let* encrypted := encryptData plainTextKey in
        match encrypted with
        | None => ret (None, Some ErrFailedToEncryptGenerated)
        | Some encryptedKey =>
            let* saved := WriteFile "key.dat" encryptedKey in
            if negb saved then ret (None, Some (ErrFailedToSave "key.dat"))
            else ret (Some plainTextKey, None)
        end
    end.
End Package.
End AccessBytes.

Module AccessMsg.
Section Package.
Variable P : Platform.

(** The second result of [AccessKey] is a message, not an error. *)
Inductive message : Type :=
  | Msg (e : error)
  | MsgKeyLoaded        (* "decryption key loaded" *)
  | MsgEmpty.           (* "" *)

Definition GetKey : M (option string * option error) :=
  let* key := gets secureKey in
  match key with
  | None => ret (None, Some ErrKeyNotLoaded)
  | Some _ =>
      run Melt in
      defer Freeze
        (let* key := gets secureKey in
         match key with
         | None => raise NilDereference
         | Some b => ret (Some (buf_bytes b), None)
         end)
  end.

Definition encryptData (data : string) : M (option string) :=
  let* inBlob := DataBlob data in
  ret (CryptProtectData P inBlob).

Definition decryptData (data : string) : M (option string) :=
  let* inBlob := DataBlob data in
  ret (CryptUnprotectData P inBlob).

(** The loop of [generate256BitsKey]: [n] more characters; a failing
    random source ends the process through [log.Fatalf]. *)
Fixpoint draw_chars (charPoolLength : Z) (n : nat) : M string :=
  match n with
  | O => ret ""
  | S k =>
      let* drawn := secureRandomInt P charPoolLength in
      match drawn with
      | (_, Some _) =>
          run modify (log_event (EvLog "Failed to generate random index")) in
          raise FatalExit
      | (randomIndex, None) =>
          let* c := index (list_ascii_of_string charPool) (Z.to_N randomIndex) in
          let* rest := draw_chars charPoolLength k in
          ret (String c rest)
      end
  end.

Definition generate256BitsKey : M string :=
  let keyLength := 32%nat in
  let charPoolLength := Z.of_nat (String.length charPool) in
  draw_chars charPoolLength keyLength.

Definition newline : string := String "010" "".

Definition banner : string :=
  "Generated keys consists of 32 characters." +:+ newline
  +:+ "Please record this key, save key.txt" +:+ newline
  +:+ "then delete the file from this server." +:+ newline
  +:+ "If you loose the key you loose your database!!" +:+ newline.

Definition rule : string :=
  "---------------------------------------------------------".

Definition AccessKey : M (bool * message) :=
  let* keyDatExists := fileExists "key.dat" in
  let* keyTxtExists := fileExists "key.txt" in
  if keyDatExists && keyTxtExists then
    ret (false, Msg (ErrBothKeyFiles "key.txt"))
  else if keyDatExists then
    let* read := ReadFile "key.dat" in
    match read with
    | None => ret (false, Msg (ErrFailedToRead "key.dat"))
    | Some encryptedKey =>
        let* decrypted := decryptData encryptedKey in
        match decrypted with
        | None => ret (false, Msg (ErrFailedToDecrypt "key.dat"))
        | Some decryptedKey =>
            run modify (set_secureKey (Some (NewBufferFromBytes decryptedKey))) in
            ret (true, MsgKeyLoaded)
        end
    end
  else if keyTxtExists then
    let* read := ReadFile "key.txt" in
    match read with
    | None => ret (false, Msg (ErrFailedToRead "key.txt"))
    | Some plainTextKey =>
        let* encrypted := encryptData plainTextKey in
        match encrypted with
        | None => ret (false, Msg (ErrFailedToEncrypt "key.txt"))
        | Some encryptedKey =>
            let* saved := WriteFile "key.dat" encryptedKey in
            if negb saved then ret (false, Msg (ErrFailedToSave "key.dat"))
            else ret (false, Msg ErrPlaintextEncrypted)
        end
    end
  else
    let* words := generate256BitsKey in
    let* written := WriteFile "key.txt" words in
    if negb written then ret (false, Msg (ErrFailedToWrite "key.txt")) else
    let* read := ReadFile "key.txt" in
    match read with
    | None => ret (false, Msg (ErrFailedToRead "key.txt"))
    | Some plainTextKey =>
        let* encrypted := encryptData plainTextKey in
        match encrypted with
        | None => ret (false, Msg ErrFailedToEncryptGenerated)
        | Some encryptedKey =>
            let* saved := WriteFile "key.dat" encryptedKey in
            if negb saved then ret (false, Msg (ErrFailedToSave "key.dat"))
            else
              run modify (log_event (EvLog banner)) in
              run modify (log_event (EvLog rule)) in
              run modify (log_event (EvLog words)) in
              run modify (log_event (EvLog rule)) in
              ret (false, MsgEmpty)
        end
    end.
End Package.
End AccessMsg.

(** ** Custody states and a test platform *)

(** The state of the disk as the entry points see it: the two results
    of [fileExists]. *)
Inductive CustodyState : Type := Empty | PlaintextOnly | CiphertextOnly | Both.

Definition custody (d : Disk) (cipherFile plainTextFile : string)
  : CustodyState :=
  match d !! cipherFile, d !! plainTextFile with
  | None, None => Empty
  | None, Some _ => PlaintextOnly
  | Some _, None => CiphertextOnly
  | Some _, Some _ => Both
  end.

(** The world after the two [os.Stat] calls every entry point begins
    with: nothing but the trace has changed. *)
Definition stat_both (cipherFile plainTextFile : string) (w : World) : World :=
  log_event (EvStat plainTextFile) (log_event (EvStat cipherFile) w).

(** A stand-in for DPAPI that tags what it protects and rejects what
    carries no tag, with a random source that counts. *)
Definition fake_protect (data : string) : option string :=
  Some ("DPAPI:" +:+ data).

Definition fake_unprotect (blob : string) : option string :=
  if String.prefix "DPAPI:" blob
  then Some (String.substring 6 (String.length blob - 6) blob)
  else None.

Definition fakeP : Platform :=
  mkPlatform fake_protect fake_unprotect
             (fun n => N.of_nat (7 * n))
             (fun n => Some (ascii_of_nat (37 * n + 200))).

(** The word list of the package's tests. *)
Definition testWordsList : list string :=
  [ "alpha"; "bravo"; "charlie"; "delta"; "echo"; "foxtrot";
    "golf"; "hotel"; "india"; "juliet"; "kilo"; "lima";
    "mike"; "november"; "oscar"; "papa"; "quebec"; "romeo";
    "sierra"; "tango"; "uniform"; "victor"; "whiskey"; "xray" ].

Definition world_of (d : Disk) : World :=
  mkWorld d None [] [] 0.

Definition empty_world : World := world_of ∅.

(** Disk states to run the entry points on. *)
Definition both_world : World :=
  world_of (<["key.dat" := "DPAPI:secret"]> (<["key.txt" := "secret"]> ∅)).

Definition plain_world : World :=
  world_of (<["key.txt" := Join testWordsList " "]> ∅).

Definition cipher_world : World :=
  world_of (<["key.dat" := "DPAPI:correct horse battery staple"]> ∅).

Definition corrupt_world : World :=
  world_of (<["key.dat" := "garbage"]> ∅).

(** An empty disk on which the third file operation fails before its
    file is open. *)
Definition faulty_world : World :=
  mkWorld ∅ None [] [NoFault; NoFault; Fails] 0.

(** An empty disk on which the third file operation fails with its
    file open and nothing written yet. *)
Definition torn_world : World :=
  mkWorld ∅ None [] [NoFault; NoFault; FailsAfter 0] 0.

(** An empty directory in which [./name] is the file [name]. *)
Definition dot_slash (path : string) : string :=
  match path with
  | String "." (String "/" name) => name
  | _ => path
  end.

Definition aliased_world : World :=
  mkWorld (mkDisk ∅ dot_slash) None [] [] 0.


(** ** Between calls, and the code no entry point calls *)

(** The world a call leaves behind, however it ends. *)
Definition final {A} (o : outcome A) : World :=
  match o with
  | Returns _ w => w
  | Panics _ w => w
  end.

(** [os.Remove] as the package's test and the operator run it between
    two calls. *)
Definition remove_file (name : string) (w : World) : World :=
  set_disk (delete name (disk w)) w.

(** Every file of [w] is in [w'] with the contents it had. *)
Definition keeps_files (w w' : World) : Prop :=
  forall name content, disk w !! name = Some content -> disk w' !! name = Some content.

(** [w'] holds a key that was decrypted from the cipher file of [w],
    found there without the plaintext file; the disk is unchanged. *)
Definition loaded_from (P : Platform) (c p : string) (w w' : World) : Prop :=
  exists blob key,
    disk w !! c = Some blob /\ disk w !! p = None
    /\ CryptUnprotectData P (blob_bytes blob) = Some key
    /\ secureKey w' = Some (NewBufferFromBytes key)
    /\ disk w' = disk w.

(** A DPAPI that returns what it was given to protect; its blobs are
    not empty and their size fits the [uint32] of [DataBlob.Size]. *)
Definition faithful (P : Platform) : Prop :=
  forall data blob,
    CryptProtectData P data = Some blob ->
    blob <> ""
    /\ (N.of_nat (String.length blob) < 2 ^ 32)%N
    /\ CryptUnprotectData P blob = Some data.

(** A faithful stand-in: a one-byte seal in front of the data. *)
Definition seal_protect (data : string) : option string :=
  if (N.of_nat (String.length data) <? 2 ^ 32 - 1)%N then Some (String "!" data) else None.

Definition seal_unprotect (blob : string) : option string :=
  match blob with
  | String "!" data => Some data
  | _ => None
  end.

Definition sealP : Platform :=
  mkPlatform seal_protect seal_unprotect
             (fun n => N.of_nat (5 * n + 3))
             (fun n => Some (ascii_of_nat (11 * n + 77))).

(** *** [selectRandomWords] *)

(** What [selectRandomWords] returns: the words, or the error "wordsList
    must contain at least 24 words, but only %d provided". *)
Inductive selection : Type :=
  | Selected (selectedWords : list string)
  | TooFewWords (provided : nat).

(** The generator after [rand.Seed(time.Now().UnixNano())]: the seed is
    the clock, so the values that follow are a stream of their own. *)
Definition reseeded (P : Platform) (stream : nat -> N) : Platform :=
  mkPlatform (CryptProtectData P) (CryptUnprotectData P) stream (crypto_rand P).

(** [wordsList[index]]. *)
Definition word_at (wordsList : list string) (i : Z) : M string :=
  index wordsList (Z.to_N i).

(** The loop of [selectRandomWords].  It runs until 24 words are
    selected, however many draws that takes; [fuel] bounds the draws and
    [None] says that the bound was reached with the loop still running. *)
Fixpoint select_loop (P : Platform) (wordsList : list string) (fuel : nat)
    (selectedWords : list string) (usedIndices : gset Z) : M (option (list string)) :=
  if (length selectedWords <? 24)%nat then
    match fuel with
    | O => ret None
    | S fuel' =>
        let* index := Intn P (Z.of_nat (length wordsList)) in
        if decide (index ∈ usedIndices) then
          select_loop P wordsList fuel' selectedWords usedIndices
        else
          let* word := word_at wordsList index in
          select_loop P wordsList fuel' (selectedWords ++ [word]) ({[index]} ∪ usedIndices)
    end
  else ret (Some selectedWords).

Definition selectRandomWords (P : Platform) (stream : nat -> N) (fuel : nat)
    (wordsList : list string) : M (option selection) :=
  if (length wordsList <? 24)%nat then ret (Some (TooFewWords (length wordsList)))
  else
    let* selectedWords := select_loop (reseeded P stream) wordsList fuel [] ∅ in
    ret (Selected <$> selectedWords).

(** The words selected so far sit in [wordsList] at the indices used so
    far, which are distinct. *)
Definition selected_at (wordsList : list string) (indices : list Z)
    (selectedWords : list string) (usedIndices : gset Z) : Prop :=
  NoDup indices
  /\ usedIndices = list_to_set indices
  /\ Forall (fun i => (0 <= i)%Z) indices
  /\ Forall2 (fun i word => wordsList !! Z.to_nat i = Some word) indices selectedWords.

(** The indices that [fuel] draws from position [k] on select in a list
    of [len] words. *)
Definition drawn_indices (stream : nat -> N) (len : nat) (k fuel : nat) : gset Z :=
  list_to_set (map (fun i => (Z.of_N (stream i) mod Z.of_nat len)%Z) (seq k fuel)).

(** The number of line breaks in a string. *)
Fixpoint count_newlines (s : string) : nat :=
  match s with
  | "" => 0
  | String c t => (if Ascii.eqb c "010" then 1 else 0) + count_newlines t
  end.

(** The total length of the words. *)
Definition total_length (words : list string) : nat :=
  foldr (fun word n => String.length word + n)%nat 0%nat words.

(** * Properties *)

Local Open Scope go_scope.
#[local] Arguments String.append !_ _ / : simpl nomatch.

(** ** The model runs *)

Example Fields_sample :
  Fields (" alpha  bravo" +:+ String "010" "charlie ") = ["alpha"; "bravo"; "charlie"].
Proof. reflexivity. Qed.

(** U+00A0 (bytes C2 A0) is white space; a lone byte C2 is not. *)
Example Fields_nbsp :
  Fields ("a" +:+ String "194" (String "160" "b")) = ["a"; "b"]
  /\ Fields ("a" +:+ String "194" "b") = ["a" +:+ String "194" "b"].
Proof. split; reflexivity. Qed.

Example charPool_length : String.length charPool = 92%nat.
Proof. reflexivity. Qed.

(** The first run of the package's own test: both files appear and the
    formatted words come back. *)
Example New_first_run :
  exists rep w',
    WordKey.New fakeP testWordsList "test_key.dat" "test_key.txt" empty_world
    = Returns (rep, None) w'
    /\ length (Fields rep) = 24%nat
    /\ custody (disk w') "test_key.dat" "test_key.txt" = Both.
Proof.
  eexists _, _. split; [vm_compute; reflexivity|].
  split; vm_compute; reflexivity.
Qed.

(** ** Elementary facts about the machine *)

Lemma set_draws_set_draws a b w : set_draws a (set_draws b w) = set_draws a w.
Proof. reflexivity. Qed.

Lemma set_draws_id w : set_draws (draws w) w = w.
Proof. by destruct w. Qed.

Lemma disk_lookup_insert_eq (d : Disk) name data :
  <[name := data]> d !! name = Some data.
Proof. apply (lookup_insert_eq (files d)). Qed.

Lemma disk_lookup_insert_ne (d : Disk) name other data :
  ~ same_file d name other -> <[name := data]> d !! other = d !! other.
Proof. intros H. by apply (lookup_insert_ne (files d)). Qed.

Lemma disk_lookup_insert_same (d : Disk) name other data :
  same_file d name other -> <[name := data]> d !! other = Some data.
Proof.
  unfold same_file. intros H.
  change (<[resolve d name := data]> (files d) !! resolve d other = Some data).
  rewrite <- H. apply lookup_insert_eq.
Qed.

(** Two paths that are not both absent, or hold different contents, name
    different files. *)
Lemma lookup_differs (d : Disk) name other :
  d !! name <> d !! other -> ~ same_file d name other.
Proof.
  unfold same_file. intros H Hsame. apply H.
  change (files d !! resolve d name = files d !! resolve d other). by rewrite Hsame.
Qed.

Lemma disk_lookup_insert_other (d : Disk) name other data :
  d !! name <> d !! other -> <[name := data]> d !! other = d !! other.
Proof. intros H. by apply disk_lookup_insert_ne, lookup_differs. Qed.

Lemma disk_lookup_delete_eq (d : Disk) name : delete name d !! name = None.
Proof. apply (lookup_delete_eq (files d)). Qed.

Lemma disk_lookup_delete_ne (d : Disk) name other :
  ~ same_file d name other -> delete name d !! other = d !! other.
Proof. intros H. by apply (lookup_delete_ne (files d)). Qed.

Lemma fileExists_present name w :
  is_Some (disk w !! name) ->
  fileExists name w = Returns true (log_event (EvStat name) w).
Proof. intros H. unfold fileExists. by rewrite bool_decide_eq_true_2. Qed.

Lemma fileExists_absent name w :
  disk w !! name = None ->
  fileExists name w = Returns false (log_event (EvStat name) w).
Proof.
  intros H. unfold fileExists. rewrite bool_decide_eq_false_2; [done|].
  rewrite H. by intros [? ?].
Qed.

Lemma DataBlob_nonempty data w :
  data <> "" -> DataBlob data w = Returns (blob_bytes data) w.
Proof. destruct data; [congruence | reflexivity]. Qed.

Lemma DataBlob_empty w : DataBlob "" w = Panics IndexOutOfRange w.
Proof. reflexivity. Qed.

Lemma custody_Both d c p :
  custody d c p = Both <-> is_Some (d !! c) /\ is_Some (d !! p).
Proof.
  unfold custody. destruct (d !! c), (d !! p); split; try done;
    intros [[? ?] [? ?]]; done.
Qed.

Lemma custody_Empty d c p :
  custody d c p = Empty <-> d !! c = None /\ d !! p = None.
Proof.
  unfold custody. destruct (d !! c), (d !! p); split; try done; intros [? ?]; done.
Qed.

Lemma custody_PlaintextOnly d c p :
  custody d c p = PlaintextOnly <-> d !! c = None /\ is_Some (d !! p).
Proof.
  unfold custody. destruct (d !! c), (d !! p); split; try done;
    intros [? [? ?]]; done.
Qed.

Lemma custody_CiphertextOnly d c p :
  custody d c p = CiphertextOnly <-> is_Some (d !! c) /\ d !! p = None.
Proof.
  unfold custody. destruct (d !! c), (d !! p); split; try done;
    intros [[? ?] ?]; done.
Qed.

(** ** Retrieval and destruction *)

(** [GetKey] of the [(bool, string)] generation tests for nil first. *)
Lemma AccessMsg_GetKey_unloaded w :
  secureKey w = None ->
  AccessMsg.GetKey w = Returns (None, Some ErrKeyNotLoaded) w.
Proof. intros H. unfold AccessMsg.GetKey, bind, gets. by rewrite H. Qed.

Lemma AccessMsg_GetKey_loaded w b :
  secureKey w = Some b ->
  AccessMsg.GetKey w
  = Returns (Some (buf_bytes b), None)
            (set_secureKey (Some (mkBuffer (buf_bytes b) false)) w).
Proof.
  intros H. destruct w as [d k tr fs n]. simpl in H. subst k. reflexivity.
Qed.

Lemma WordKey_GetKey_loaded w b :
  secureKey w = Some b ->
  WordKey.GetKey w
  = Returns (buf_bytes b, None)
            (set_secureKey (Some (mkBuffer (buf_bytes b) false)) w).
Proof.
  intros H. destruct w as [d k tr fs n]. simpl in H. subst k. reflexivity.
Qed.

(** C5, at the failing input.  With no key loaded ([secureKey] nil, as
    before any [New] and after [DestroyKey]) the [GetKey] that goes with
    [New] calls [secureKey.Melt()] ahead of its nil test: it panics on
    the nil pointer instead of returning the "key not loaded" error.
    The [GetKey] that goes with [AccessKey] tests first and returns the
    error, leaving the state as it was. *)
Theorem C5_GetKey_before_New_panics :
  forall d tr fs n,
    WordKey.GetKey (mkWorld d None tr fs n)
    = Panics NilDereference (mkWorld d None tr fs n)
    /\ AccessMsg.GetKey (mkWorld d None tr fs n)
       = Returns (None, Some ErrKeyNotLoaded) (mkWorld d None tr fs n).
Proof.
  intros d tr fs n. split.
  - unfold WordKey.GetKey, bind, Melt. reflexivity.
  - apply AccessMsg_GetKey_unloaded. reflexivity.
Qed.

Lemma DestroyKey_unloaded w :
  secureKey w = None -> WordKey.DestroyKey w = Returns tt w.
Proof. intros H. unfold WordKey.DestroyKey, bind, gets. by rewrite H. Qed.

Lemma DestroyKey_result w :
  WordKey.DestroyKey w = Returns tt (set_secureKey None w).
Proof.
  unfold WordKey.DestroyKey, bind, gets, Destroy, modify.
  destruct w as [d [b|] tr fs n]; reflexivity.
Qed.

(** [DestroyKey] with nothing loaded changes nothing, and a second
    [DestroyKey] adds nothing to the first. *)
Lemma DestroyKey_idempotent w :
  (secureKey w = None -> WordKey.DestroyKey w = Returns tt w)
  /\ bind WordKey.DestroyKey (fun _ => WordKey.DestroyKey) w = WordKey.DestroyKey w.
Proof.
  split; [apply DestroyKey_unloaded|].
  unfold bind. rewrite !DestroyKey_result. reflexivity.
Qed.

(** C9, at the failing input.  [DestroyKey] always returns and leaves
    [secureKey] nil, loaded or not, and a second [DestroyKey] changes
    nothing more; but the [GetKey] of the same file, called next,
    panics on the nil pointer where the "key not loaded" error is
    due. *)
Theorem C9_DestroyKey_then_GetKey_panics :
  forall w,
    WordKey.DestroyKey w = Returns tt (set_secureKey None w)
    /\ bind WordKey.DestroyKey (fun _ => WordKey.DestroyKey) w
       = WordKey.DestroyKey w
    /\ bind WordKey.DestroyKey (fun _ => WordKey.GetKey) w
       = Panics NilDereference (set_secureKey None w).
Proof.
  intros w. split; [apply DestroyKey_result|].
  split; [apply DestroyKey_idempotent|].
  unfold bind. rewrite DestroyKey_result. reflexivity.
Qed.

(** ** The random index and the 32-character key *)

Lemma secureRandomInt_nonpositive P max w :
  (max <= 0)%Z -> secureRandomInt P max w = Returns (0%Z, None) w.
Proof.
  intros H. unfold secureRandomInt.
  destruct (Z.leb_spec max 0); [reflexivity | lia].
Qed.

Lemma secureRandomInt_positive P max w b :
  (0 < max)%Z -> crypto_rand P (draws w) = Some b ->
  secureRandomInt P max w
  = Returns ((Z.of_N (byte_val b) mod max)%Z, None) (set_draws (S (draws w)) w).
Proof.
  intros Hmax Hb. unfold secureRandomInt.
  destruct (Z.leb_spec max 0); [lia|].
  unfold bind, rand_Read. rewrite Hb. unfold ret.
  rewrite Z.rem_mod_nonneg by lia. reflexivity.
Qed.

Lemma secureRandomInt_failed P max w :
  (0 < max)%Z -> crypto_rand P (draws w) = None ->
  secureRandomInt P max w = Returns (0%Z, Some ErrRandom) (set_draws (S (draws w)) w).
Proof.
  intros Hmax Hb. unfold secureRandomInt.
  destruct (Z.leb_spec max 0); [lia|].
  unfold bind, rand_Read. rewrite Hb. reflexivity.
Qed.

Lemma length_list_ascii_of_string s :
  length (list_ascii_of_string s) = String.length s.
Proof. induction s; simpl; congruence. Qed.

(** An index below the length of the pool reads a character of it. *)
Lemma index_charPool (i : Z) w :
  (0 <= i < Z.of_nat (String.length charPool))%Z ->
  exists c, index (list_ascii_of_string charPool) (Z.to_N i) w = Returns c w
            /\ c ∈ list_ascii_of_string charPool.
Proof.
  intros Hi. unfold index.
  destruct (list_ascii_of_string charPool !! N.to_nat (Z.to_N i)) as [c|] eqn:E.
  - exists c. split; [reflexivity|]. by eapply list_elem_of_lookup_2.
  - apply lookup_ge_None in E. rewrite length_list_ascii_of_string in E. lia.
Qed.

(** What [draw_chars] does with the [n] coming bytes of the source: it
    returns [n] characters of the pool when all of them arrive and ends
    the process at the first that does not; it never reads outside the
    pool. *)
Lemma AccessMsg_draw_chars_spec P n w :
  match AccessMsg.draw_chars P (Z.of_nat (String.length charPool)) n w with
  | Returns key w' =>
      String.length key = n
      /\ Forall (fun c => c ∈ list_ascii_of_string charPool) (list_ascii_of_string key)
      /\ w' = set_draws (draws w + n) w
      /\ (forall i, (i < n)%nat -> crypto_rand P (draws w + i) <> None)
  | Panics p _ =>
      p = FatalExit /\ exists i, (i < n)%nat /\ crypto_rand P (draws w + i) = None
  end.
Proof.
  revert w. induction n as [|n IH]; intros w.
  - simpl. unfold ret. split; [done|]. split; [constructor|].
    split; [by rewrite Nat.add_0_r, set_draws_id | intros; lia].
  - cbn [AccessMsg.draw_chars]. unfold bind at 1.
    destruct (crypto_rand P (draws w)) as [b|] eqn:Hb.
    + rewrite (secureRandomInt_positive P _ w b) by (done || (vm_compute; done)).
      unfold bind at 1.
      destruct (index_charPool (Z.of_N (byte_val b) mod Z.of_nat (String.length charPool))
                  (set_draws (S (draws w)) w)) as (c & Hc & Hin).
      { apply Z.mod_pos_bound. vm_compute. done. }
      rewrite Hc. unfold bind at 1.
      specialize (IH (set_draws (S (draws w)) w)).
      destruct (AccessMsg.draw_chars P _ n _) as [key w'|p w'].
      * destruct IH as (Hlen & Hall & Hw & Hsrc). unfold ret.
        split; [simpl; congruence|]. split; [by constructor|].
        split.
        { rewrite Hw. simpl draws. rewrite set_draws_set_draws. f_equal. lia. }
        intros i Hi. destruct i as [|i]; [rewrite Nat.add_0_r; congruence|].
        specialize (Hsrc i). simpl draws in Hsrc.
        replace (draws w + S i)%nat with (S (draws w) + i)%nat by lia.
        apply Hsrc. lia.
      * destruct IH as (Hp & i & Hi & Hnone). split; [done|].
        exists (S i). split; [lia|]. simpl draws in Hnone.
        by replace (draws w + S i)%nat with (S (draws w) + i)%nat by lia.
    + rewrite (secureRandomInt_failed P _ w) by (done || (vm_compute; done)).
      unfold bind, modify, raise. split; [done|].
      exists 0%nat. split; [lia|]. by rewrite Nat.add_0_r.
Qed.

(** C10.  [secureRandomInt] returns [(0, nil)] for [max <= 0]; for
    [max > 0] and a byte [b] from the random source it returns
    [b mod max], which lies in [[0, max)], and no error.  Hence
    [generate256BitsKey] never indexes outside the character pool: when
    it returns, the key has exactly 32 characters, all of the pool, and
    it returns whenever the 32 reads of the source succeed (a failing
    read ends the process through [log.Fatalf]). *)
Theorem C10_secureRandomInt_in_range :
  forall P w,
    (forall max, (max <= 0)%Z -> secureRandomInt P max w = Returns (0%Z, None) w)
    /\ (forall max b, (0 < max)%Z -> crypto_rand P (draws w) = Some b ->
          exists n, secureRandomInt P max w = Returns (n, None) (set_draws (S (draws w)) w)
                    /\ n = (Z.of_N (byte_val b) mod max)%Z
                    /\ (0 <= n < max)%Z)
    /\ match AccessMsg.generate256BitsKey P w with
       | Returns key w' =>
           String.length key = 32%nat
           /\ Forall (fun c => c ∈ list_ascii_of_string charPool)
                     (list_ascii_of_string key)
       | Panics p _ =>
           p = FatalExit
           /\ exists i, (i < 32)%nat /\ crypto_rand P (draws w + i) = None
       end
    /\ ((forall i, (i < 32)%nat -> crypto_rand P (draws w + i) <> None) ->
        exists key w', AccessMsg.generate256BitsKey P w = Returns key w').
Proof.
  intros P w. split; [intros; by apply secureRandomInt_nonpositive|].
  split.
  { intros max b Hmax Hb. eexists. split; [by apply secureRandomInt_positive|].
    split; [reflexivity|]. by apply Z.mod_pos_bound. }
  unfold AccessMsg.generate256BitsKey.
  pose proof (AccessMsg_draw_chars_spec P 32 w) as H.
  destruct (AccessMsg.draw_chars P _ 32 w) as [key w'|p w'].
  - destruct H as (Hlen & Hall & _ & _). split; [done|]. intros _. by eexists _, _.
  - destruct H as (Hp & i & Hi & Hnone). split; [by eauto|].
    intros Hall. by destruct (Hall i Hi).
Qed.

Lemma C10_secureRandomInt_in_range_witness :
  secureRandomInt fakeP (-3) empty_world = Returns (0%Z, None) empty_world
  /\ (exists n, secureRandomInt fakeP 92 empty_world
                = Returns (n, None) (set_draws 1 empty_world)
                /\ n = (200 mod 92)%Z
                /\ (0 <= n < 92)%Z)
  /\ exists key w', AccessMsg.generate256BitsKey fakeP empty_world = Returns key w'.
Proof.
  destruct (C10_secureRandomInt_in_range fakeP empty_world) as (H0 & H1 & _ & H3).
  split; [apply H0; lia|]. split.
  - apply (H1 92%Z (ascii_of_nat 200)); [lia | reflexivity].
  - apply H3. intros i _. simpl. discriminate.
Defined.

(** ** Both files present *)

Lemma New_both P wordsList c p w :
  wordsList <> [] -> is_Some (disk w !! c) -> is_Some (disk w !! p) ->
  WordKey.New P wordsList c p w
  = Returns ("", Some (ErrBothKeyFiles p)) (stat_both c p w).
Proof.
  intros Hwl Hc Hp. unfold WordKey.New.
  destruct wordsList as [|x xs]; [congruence|]. cbn [length Nat.eqb].
  unfold bind. rewrite (fileExists_present c w Hc).
  rewrite fileExists_present by done. reflexivity.
Qed.

Lemma New_uninitialized P c p w :
  WordKey.New P [] c p w = Returns ("", Some ErrWordsListNotInitialized) w.
Proof. reflexivity. Qed.

Lemma Get_both P c p w :
  is_Some (disk w !! c) -> is_Some (disk w !! p) ->
  ByteKey.Get P c p w = Returns (None, Some (ErrBothKeyFiles p)) (stat_both c p w).
Proof.
  intros Hc Hp. unfold ByteKey.Get, bind.
  rewrite (fileExists_present c w Hc). rewrite fileExists_present by done.
  reflexivity.
Qed.

Lemma AccessMsg_both P w :
  is_Some (disk w !! "key.dat") -> is_Some (disk w !! "key.txt") ->
  AccessMsg.AccessKey P w
  = Returns (false, AccessMsg.Msg (ErrBothKeyFiles "key.txt"))
            (stat_both "key.dat" "key.txt" w).
Proof.
  intros Hc Hp. unfold AccessMsg.AccessKey, bind.
  rewrite (fileExists_present "key.dat" w Hc). rewrite fileExists_present by done.
  reflexivity.
Qed.

Lemma AccessBytes_both P w :
  is_Some (disk w !! "key.dat") -> is_Some (disk w !! "key.txt") ->
  AccessBytes.AccessKey P w
  = Returns (None, Some (ErrBothKeyFiles "key.txt")) (stat_both "key.dat" "key.txt" w).
Proof.
  intros Hc Hp. unfold AccessBytes.AccessKey, bind.
  rewrite (fileExists_present "key.dat" w Hc). rewrite fileExists_present by done.
  reflexivity.
Qed.

(** C2 as stated fails for [New]: before it looks at the disk, [New]
    tests [wordsList], and with the list not yet set (its zero value) it
    answers "wordsList is not initialized" although both files exist. *)
Lemma C2_uninitialized_wordsList_counterexample :
  custody (disk both_world) "key.dat" "key.txt" = Both
  /\ WordKey.New fakeP [] "key.dat" "key.txt" both_world
     = Returns ("", Some ErrWordsListNotInitialized) both_world
  /\ ErrWordsListNotInitialized <> ErrBothKeyFiles "key.txt".
Proof. split; [vm_compute; reflexivity|]. split; [reflexivity | discriminate]. Qed.

(** C2, amended.  With both files present [Get] and [AccessKey] fail
    with the both-key-files error, and so does [New] once [wordsList] is
    set (with an empty [wordsList] it fails before, with its own
    error).  Each of them ends in the world it started in but for the
    trace, which has grown by the two [os.Stat] calls: no file is read
    or written, the disk and the loaded key are as before. *)
Theorem C2_both_files_refused :
  forall P wordsList c p w,
    custody (disk w) c p = Both ->
    (wordsList <> [] ->
       WordKey.New P wordsList c p w
       = Returns ("", Some (ErrBothKeyFiles p)) (stat_both c p w))
    /\ (wordsList = [] ->
       WordKey.New P wordsList c p w
       = Returns ("", Some ErrWordsListNotInitialized) w)
    /\ ByteKey.Get P c p w
       = Returns (None, Some (ErrBothKeyFiles p)) (stat_both c p w)
    /\ (c = "key.dat" -> p = "key.txt" ->
        AccessMsg.AccessKey P w
        = Returns (false, AccessMsg.Msg (ErrBothKeyFiles "key.txt")) (stat_both c p w))
    /\ disk (stat_both c p w) = disk w
    /\ secureKey (stat_both c p w) = secureKey w
    /\ trace (stat_both c p w) = trace w ++ [EvStat c; EvStat p].
Proof.
  intros P wordsList c p w [Hc Hp]%custody_Both.
  split; [intros; by apply New_both|].
  split; [intros ->; apply New_uninitialized|].
  split; [by apply Get_both|].
  split; [intros -> ->; by apply AccessMsg_both|].
  split; [reflexivity|]. split; [reflexivity|].
  simpl. by rewrite <- app_assoc.
Qed.

Lemma C2_both_files_refused_witness :
  WordKey.New fakeP testWordsList "key.dat" "key.txt" both_world
  = Returns ("", Some (ErrBothKeyFiles "key.txt")) (stat_both "key.dat" "key.txt" both_world)
  /\ ByteKey.Get fakeP "key.dat" "key.txt" both_world
     = Returns (None, Some (ErrBothKeyFiles "key.txt"))
               (stat_both "key.dat" "key.txt" both_world)
  /\ AccessMsg.AccessKey fakeP both_world
     = Returns (false, AccessMsg.Msg (ErrBothKeyFiles "key.txt"))
               (stat_both "key.dat" "key.txt" both_world).
Proof.
  destruct (C2_both_files_refused fakeP testWordsList "key.dat" "key.txt" both_world)
    as (HNew & _ & HGet & HAcc & _).
  { vm_compute. reflexivity. }
  split; [apply HNew; discriminate|]. split; [exact HGet|].
  apply HAcc; reflexivity.
Defined.

(** ** Reading fields back

    A separator is one ASCII byte; no encoding of a rune continues into
    it, so the runes of [w +:+ sep +:+ rest] are those of [w], the
    separator, and those of [rest]. *)

Lemma decoderune_app c0 t0 sep rest :
  is_cont sep = false ->
  decoderune c0 (t0 +:+ String sep rest)
  = ((decoderune c0 t0).1.1, (decoderune c0 t0).1.2,
     (decoderune c0 t0).2 +:+ String sep rest).
Proof.
  intros Hsep. unfold decoderune. cbv zeta.
  destruct (byte_val c0 <? 128)%N; [reflexivity|].
  destruct ((192 <=? byte_val c0)%N && (byte_val c0 <? 224)%N).
  { destruct t0 as [|c1 t1]; cbn [String.append].
    - by rewrite Hsep.
    - destruct (is_cont c1); [|reflexivity]. by destruct (_ <? _)%N. }
  destruct ((224 <=? byte_val c0)%N && (byte_val c0 <? 240)%N).
  { destruct t0 as [|c1 [|c2 t2]]; cbn [String.append].
    - destruct rest; [reflexivity|]. by rewrite Hsep.
    - by rewrite Hsep, andb_false_r.
    - destruct (is_cont c1 && is_cont c2); [|reflexivity].
      by destruct (_ && _). }
  destruct ((240 <=? byte_val c0)%N && (byte_val c0 <? 248)%N); [|reflexivity].
  destruct t0 as [|c1 [|c2 [|c3 t3]]]; cbn [String.append].
  - destruct rest as [|? [|? ?]]; try reflexivity. by rewrite Hsep.
  - destruct rest; [reflexivity|]. by rewrite Hsep, andb_false_r.
  - by rewrite Hsep, andb_false_r.
  - destruct (is_cont c1 && is_cont c2 && is_cont c3); [|reflexivity].
    by destruct (_ && _).
Qed.

Lemma decoderune_split c0 t0 :
  (decoderune c0 t0).1.2 +:+ (decoderune c0 t0).2 = String c0 t0
  /\ (String.length (decoderune c0 t0).2 <= String.length t0)%nat.
Proof.
  unfold decoderune. cbv zeta.
  repeat match goal with
         | |- context [if ?b then _ else _] => destruct b
         | |- context [match ?t with EmptyString => _ | String _ _ => _ end] => destruct t
         end; simpl; split; (reflexivity || lia).
Qed.

Lemma string_app_assoc (a b c : string) : (a +:+ b) +:+ c = a +:+ b +:+ c.
Proof. induction a; simpl; congruence. Qed.

Lemma string_app_nil_r (a : string) : a +:+ "" = a.
Proof. induction a; simpl; congruence. Qed.

Lemma runes_fuel_enough n m s :
  (String.length s <= n)%nat -> (String.length s <= m)%nat ->
  runes_fuel n s = runes_fuel m s.
Proof.
  revert m s. induction n as [|n IH]; intros m s Hn Hm.
  - destruct s; [|simpl in Hn; lia]. by destruct m.
  - destruct s as [|c0 t0]; [by destruct m|].
    destruct m as [|m]; [simpl in Hm; lia|]. simpl.
    pose proof (decoderune_split c0 t0) as [_ Hlen].
    destruct (decoderune c0 t0) as [[r enc] rest]. simpl in *.
    f_equal. apply IH; lia.
Qed.

Lemma runes_nil : runes "" = [].
Proof. reflexivity. Qed.

Lemma runes_cons c0 t0 :
  runes (String c0 t0)
  = ((decoderune c0 t0).1.1, (decoderune c0 t0).1.2) :: runes (decoderune c0 t0).2.
Proof.
  unfold runes. simpl.
  pose proof (decoderune_split c0 t0) as [_ Hlen].
  destruct (decoderune c0 t0) as [[r enc] rest]. simpl in *.
  f_equal. apply runes_fuel_enough; lia.
Qed.

Lemma runes_concat s : concat_enc (runes s) = s.
Proof.
  remember (String.length s) as n eqn:Hn. revert s Hn.
  induction n as [n IH] using lt_wf_ind. intros s Hn.
  destruct s as [|c0 t0]; [reflexivity|].
  rewrite runes_cons. simpl.
  pose proof (decoderune_split c0 t0) as [Hcat Hlen].
  rewrite (IH (String.length (decoderune c0 t0).2)); [done | simpl in Hn; lia | done].
Qed.

Lemma runes_app w sep rest :
  is_cont sep = false ->
  runes (w +:+ String sep rest) = runes w ++ runes (String sep rest).
Proof.
  intros Hsep. remember (String.length w) as n eqn:Hn. revert w Hn.
  induction n as [n IH] using lt_wf_ind. intros w Hn.
  destruct w as [|c0 t0]; [reflexivity|].
  simpl String.append.
  rewrite (runes_cons c0 (t0 +:+ String sep rest)), (runes_cons c0 t0).
  rewrite decoderune_app by done. simpl.
  pose proof (decoderune_split c0 t0) as [_ Hlen].
  f_equal. eapply IH; [|reflexivity]. simpl in Hn. lia.
Qed.

Lemma runes_ascii c rest :
  (byte_val c <? 128)%N = true ->
  runes (String c rest) = (byte_val c, String c "") :: runes rest.
Proof. intros H. rewrite runes_cons. unfold decoderune. by rewrite H. Qed.

Lemma spans_fields f rs tail x :
  forallb (fun re => negb (f re.1)) rs = true ->
  spans f (rs ++ tail) (Some x) = spans f tail (Some (x +:+ concat_enc rs)).
Proof.
  revert x. induction rs as [|[r enc] rs IH]; intros x H; simpl in *.
  - by rewrite string_app_nil_r.
  - apply andb_prop in H as [Hr Hrs]. apply negb_true_iff in Hr. rewrite Hr.
    rewrite IH by done. by rewrite string_app_assoc.
Qed.

Lemma spans_token f w tail :
  w <> "" ->
  forallb (fun re => negb (f re.1)) (runes w) = true ->
  spans f (runes w ++ tail) None = spans f tail (Some w).
Proof.
  intros Hw H. pose proof (runes_concat w) as Hcat.
  destruct (runes w) as [|[r enc] rs] eqn:E.
  - simpl in Hcat. congruence.
  - simpl in *. apply andb_prop in H as [Hr Hrs]. apply negb_true_iff in Hr.
    rewrite Hr. rewrite spans_fields by done. by rewrite Hcat.
Qed.

Lemma is_token_spec w :
  is_token w = true <->
  w <> "" /\ forallb (fun re => negb (IsSpace re.1)) (runes w) = true.
Proof.
  unfold is_token. rewrite andb_true_iff, negb_true_iff.
  split; intros [H1 H2]; split; try done.
  - intros ->. discriminate.
  - by apply String.eqb_neq.
Qed.

Lemma Fields_token_sep w sep rest :
  is_token w = true -> is_sep sep ->
  Fields (w +:+ String sep rest) = w :: Fields rest.
Proof.
  intros [Hw Hns]%is_token_spec Hsep. unfold Fields, FieldsFunc.
  assert ((byte_val sep <? 128)%N = true /\ IsSpace (byte_val sep) = true)
    as [Hascii Hsp] by (destruct Hsep as [-> | ->]; split; reflexivity).
  rewrite runes_app.
  2:{ destruct Hsep as [-> | ->]; reflexivity. }
  rewrite spans_token by done. rewrite runes_ascii by done.
  simpl. by rewrite Hsp.
Qed.

Lemma Fields_token w : is_token w = true -> Fields w = [w].
Proof.
  intros [Hw Hns]%is_token_spec. unfold Fields, FieldsFunc.
  rewrite <- (app_nil_r (runes w)). by rewrite spans_token.
Qed.

Lemma Fields_formatWords_from i ws :
  Forall (fun w => is_token w = true) ws ->
  Fields (WordKey.formatWords_from i ws) = ws.
Proof.
  intros H. revert i. induction H as [|w ws Hw Hws IH]; intros i.
  - reflexivity.
  - cbn [WordKey.formatWords_from].
    destruct ((i + 1) mod 6 =? 0)%nat; simpl String.append;
      rewrite Fields_token_sep; try done; try (by rewrite IH);
      [by right | by left].
Qed.

Lemma Fields_Join ws :
  Forall (fun w => is_token w = true) ws -> Fields (Join ws " ") = ws.
Proof.
  induction 1 as [|w ws Hw Hws IH]; [reflexivity|].
  destruct ws as [|w' ws'].
  - simpl. by apply Fields_token.
  - change (Join (w :: w' :: ws') " ")
      with (w +:+ String " " (Join (w' :: ws') " ")).
    rewrite Fields_token_sep; [by rewrite IH | done | by left].
Qed.

(** ** The word list: validation and generation *)

Lemma wordSet_fold (wordsList : list string) (set : gmap string unit) x :
  is_Some (foldl (fun set word => <[word := tt]> set) set wordsList !! x)
  <-> x ∈ wordsList \/ is_Some (set !! x).
Proof.
  revert set. induction wordsList as [|word rest IH]; intros set; simpl.
  - split; [by right | intros [H|H]; [by apply elem_of_nil in H | done]].
  - rewrite IH, elem_of_cons, lookup_insert_is_Some. 
    destruct (decide (word = x)) as [->|Hne]; intuition congruence.
Qed.

Lemma wordSet_lookup wordsList x :
  is_Some (WordKey.wordSet wordsList !! x) <-> x ∈ wordsList.
Proof.
  unfold WordKey.wordSet. rewrite wordSet_fold, lookup_empty.
  split; [intros [H|[? H]]; [done | discriminate] | by left].
Qed.

Lemma all_exist_spec (set : gmap string unit) words :
  WordKey.all_exist set words = true <-> Forall (fun word => is_Some (set !! word)) words.
Proof.
  induction words as [|word rest IH]; simpl.
  - split; [constructor | done].
  - destruct (set !! word) as [[]|] eqn:E.
    + rewrite IH. split; [intros H; constructor; [by rewrite E | done]|].
      by intros [_ H]%Forall_cons.
    + split; [done|]. intros [[? H] _]%Forall_cons. congruence.
Qed.

Lemma validateWords_spec wordsList words :
  WordKey.validateWords wordsList words = true
  <-> Forall (fun word => word ∈ wordsList) words.
Proof.
  unfold WordKey.validateWords. rewrite all_exist_spec.
  apply Forall_proper; [|done]. intros x. apply wordSet_lookup.
Qed.

Lemma draw_words_spec P wordsList n w :
  wordsList <> [] ->
  exists words,
    WordKey.draw_words P wordsList n w = Returns words (set_draws (draws w + n) w)
    /\ length words = n
    /\ Forall (fun word => word ∈ wordsList) words.
Proof.
  intros Hwl. revert w. induction n as [|n IH]; intros w.
  - exists []. simpl. unfold ret. rewrite Nat.add_0_r, set_draws_id. done.
  - cbn [WordKey.draw_words]. unfold bind at 1. unfold Intn.
    assert (0 < Z.of_nat (length wordsList))%Z as Hlen
      by (destruct wordsList; [done | simpl; lia]).
    destruct (Z.leb_spec (Z.of_nat (length wordsList)) 0); [lia|].
    unfold bind at 1. unfold index.
    pose proof (Z.mod_pos_bound (Z.of_N (math_rand P (draws w))) _ Hlen) as Hi.
    destruct (wordsList !! N.to_nat (Z.to_N _)) as [word|] eqn:E.
    2:{ apply lookup_ge_None in E. lia. }
    unfold ret at 1. unfold bind at 1.
    destruct (IH (set_draws (S (draws w)) w)) as (rest & Hrest & Hlenr & Hall).
    rewrite Hrest. unfold ret. exists (word :: rest).
    split; [|split].
    + simpl draws. rewrite set_draws_set_draws. do 2 f_equal. lia.
    + simpl. congruence.
    + constructor; [|done]. by eapply list_elem_of_lookup_2.
Qed.

Lemma generate256BitsKey_spec P wordsList w :
  wordsList <> [] ->
  exists words,
    WordKey.generate256BitsKey P wordsList w = Returns words (set_draws (draws w + 24) w)
    /\ length words = 24%nat
    /\ Forall (fun word => word ∈ wordsList) words.
Proof.
  intros Hwl. unfold WordKey.generate256BitsKey.
  destruct wordsList as [|x xs]; [done|]. cbn [length Nat.eqb].
  by apply draw_words_spec.
Qed.

(** ** Round trip of the formatted words *)

(** C8 as stated fails: nothing keeps white space out of [wordsList].
    With the entry "new york", the 24 words that [generate256BitsKey]
    draws read back from their formatted form as 48 fields. *)
Lemma C8_spaced_entry_counterexample :
  exists s w',
    WordKey.generate256BitsKey fakeP ["new york"] empty_world = Returns s w'
    /\ length s = 24%nat
    /\ Forall (fun word => word ∈ ["new york"]) s
    /\ length (Fields (WordKey.formatWords s)) = 48%nat
    /\ Fields (WordKey.formatWords s) <> s.
Proof.
  eexists _, _. split; [vm_compute; reflexivity|].
  split; [vm_compute; reflexivity|].
  split; [apply Forall_forall; intros x Hx; apply list_elem_of_In in Hx; simpl in Hx; apply list_elem_of_singleton; intuition congruence|].
  split; [vm_compute; reflexivity | vm_compute; discriminate].
Qed.

(** C8, amended.  When every entry of the word list is a token (not
    empty, no white-space rune in it), a sequence of 24 of its words is
    read back unchanged by [strings.Fields], from the formatted form
    that [New] returns, line breaks included, as from the
    space-separated form that [New] writes to the plaintext file; the
    fields read back pass the check of [New].  This holds of the words
    [generate256BitsKey] returns. *)
Theorem C8_formatted_words_read_back :
  forall P wordsList,
    Forall (fun word => is_token word = true) wordsList ->
    (forall s, length s = 24%nat -> Forall (fun word => word ∈ wordsList) s ->
       Fields (WordKey.formatWords s) = s
       /\ Fields (Join s " ") = s
       /\ negb (length (Fields (Join s " ")) =? 24)%nat
          || negb (WordKey.validateWords wordsList (Fields (Join s " "))) = false)
    /\ (forall w s w',
          WordKey.generate256BitsKey P wordsList w = Returns s w' ->
          Fields (WordKey.formatWords s) = s /\ Fields (Join s " ") = s).
Proof.
  intros P wordsList Hdict.
  assert (forall s, Forall (fun word => word ∈ wordsList) s ->
                    Forall (fun word => is_token word = true) s) as Htok.
  { intros s Hs. rewrite Forall_forall in *. auto. }
  split.
  - intros s Hlen Hs. rewrite Fields_Join by auto.
    split; [apply Fields_formatWords_from; auto|]. split; [done|].
    rewrite Hlen. apply validateWords_spec in Hs. by rewrite Hs.
  - intros w s w' Hgen.
    destruct wordsList as [|x xs].
    + injection Hgen as <- _. done.
    + destruct (generate256BitsKey_spec P (x :: xs) w) as (s' & Hs' & _ & Hall); [done|].
      rewrite Hs' in Hgen. injection Hgen as -> _.
      split; [apply Fields_formatWords_from | apply Fields_Join]; auto.
Qed.

Lemma C8_formatted_words_read_back_witness :
  Fields (WordKey.formatWords testWordsList) = testWordsList
  /\ Fields (Join testWordsList " ") = testWordsList.
Proof.
  destruct (C8_formatted_words_read_back fakeP testWordsList) as [H _].
  { apply Forall_forall. intros x Hx. apply list_elem_of_In in Hx. simpl in Hx.
    repeat (destruct Hx as [<-|Hx]; [vm_compute; reflexivity|]). done. }
  destruct (H testWordsList) as (H1 & H2 & _).
  - reflexivity.
  - rewrite Forall_forall. auto.
  - exact (conj H1 H2).
Defined.

(** ** Symbolic runs of the entry points

    Each lemma follows one entry point down one custody state and
    leaves the outcome as a function of what the collaborators do: the
    fault schedule and the answer of DPAPI. *)

(** The two [fileExists] calls every entry point opens with. *)
Ltac stat_files :=
  repeat (unfold bind at 1;
          first [ rewrite fileExists_present
                    by (simpl; first [eassumption | eexists; eassumption])
                | rewrite fileExists_absent by (simpl; assumption) ]);
  cbn [andb].

(** *** The paths of [New] *)

Lemma Join_nonempty w1 w2 ws sep : sep <> "" -> Join (w1 :: w2 :: ws) sep <> "".
Proof.
  intros Hsep. change (Join (w1 :: w2 :: ws) sep) with (w1 +:+ sep +:+ Join (w2 :: ws) sep).
  destruct w1; simpl; [|done]. destruct sep; [done|]. simpl. done.
Qed.

Lemma Join_24_nonempty ws : length ws = 24%nat -> Join ws " " <> "".
Proof.
  destruct ws as [|w1 [|w2 ws]]; try discriminate. intros _. by apply Join_nonempty.
Qed.

Lemma New_plaintext_path P wordsList c p w content :
  wordsList <> [] -> disk w !! c = None -> disk w !! p = Some content ->
  let w1 := after_io (EvReadFile p) (stat_both c p w) in
  let words := Fields content in
  WordKey.New P wordsList c p w
  = if next_fault w then Returns ("", Some (ErrFailedToRead p)) w1
    else if negb (length words =? 24)%nat || negb (WordKey.validateWords wordsList words)
    then Returns ("", Some (ErrNot24ValidWords content)) w1
    else match CryptProtectData P (blob_bytes (Join words " ")) with
         | None => Returns ("", Some (ErrFailedToEncrypt content)) w1
         | Some blob =>
             if next_fault w1
             then Returns ("", Some (ErrFailedToSave c)) (interrupted c blob w1)
             else Returns ("", None)
                    (set_disk (<[c := blob]> (disk w)) (after_io (EvWriteFile c blob) w1))
         end.
Proof.
  intros Hwl Hc Hp w1 words. unfold WordKey.New.
  destruct wordsList as [|x xs]; [done|]. cbn [length Nat.eqb].
  stat_files. unfold bind at 1. unfold ReadFile.
  change (next_fault (log_event (EvStat p) (log_event (EvStat c) w))) with (next_fault w).
  change (disk (log_event _ _) !! p) with (disk w !! p). rewrite Hp.
  fold (stat_both c p w). fold w1.
  destruct (next_fault w); [reflexivity|]. cbv beta iota. fold words.
  destruct (negb (length words =? 24)%nat) eqn:Hlen; [reflexivity|].
  cbn [orb]. destruct (negb (WordKey.validateWords (x :: xs) words)); [reflexivity|].
  unfold bind at 1. unfold WordKey.encryptData. unfold bind at 1.
  rewrite DataBlob_nonempty.
  2:{ apply Join_24_nonempty. apply negb_false_iff, Nat.eqb_eq in Hlen. done. }
  unfold ret at 1. destruct (CryptProtectData P _) as [blob|]; [|reflexivity].
  unfold bind. unfold WriteFile. destruct (next_fault w1); reflexivity.
Qed.

Lemma New_cipher_path P wordsList c p w encryptedKey :
  wordsList <> [] -> disk w !! c = Some encryptedKey -> disk w !! p = None ->
  let w1 := after_io (EvReadFile c) (stat_both c p w) in
  WordKey.New P wordsList c p w
  = if next_fault w then Returns ("", Some (ErrFailedToRead "key.dat")) w1
    else match encryptedKey with
         | "" => Panics IndexOutOfRange w1
         | _ =>
             match CryptUnprotectData P (blob_bytes encryptedKey) with
             | None => Returns ("", Some (ErrFailedToDecrypt "key.dat")) w1
             | Some decryptedKey =>
                 Returns ("", None)
                         (set_secureKey (Some (NewBufferFromBytes decryptedKey)) w1)
             end
         end.
Proof.
  intros Hwl Hc Hp w1. unfold WordKey.New.
  destruct wordsList as [|x xs]; [done|]. cbn [length Nat.eqb].
  stat_files. unfold bind at 1. unfold ReadFile.
  change (next_fault (log_event (EvStat p) (log_event (EvStat c) w))) with (next_fault w).
  change (disk (log_event _ _) !! c) with (disk w !! c).
  fold (stat_both c p w). fold w1. rewrite Hc.
  destruct (next_fault w); [reflexivity|].
  destruct encryptedKey as [|a blob]; [reflexivity|].
  unfold bind at 1. unfold WordKey.decryptData. unfold bind at 1.
  rewrite DataBlob_nonempty by done. unfold ret at 1.
  destruct (CryptUnprotectData P _); reflexivity.
Qed.

Lemma New_empty_path P wordsList c p w :
  wordsList <> [] -> disk w !! c = None -> disk w !! p = None ->
  exists words,
    length words = 24%nat
    /\ Forall (fun word => word ∈ wordsList) words
    /\ WordKey.generate256BitsKey P wordsList (stat_both c p w)
       = Returns words (set_draws (draws w + 24) (stat_both c p w))
    /\ let data := Join words " " in
       let w0 := set_draws (draws w + 24) (stat_both c p w) in
       let w1 := set_disk (<[p := data]> (disk w)) (after_io (EvWriteFile p data) w0) in
       let w2 := after_io (EvReadFile p) w1 in
       WordKey.New P wordsList c p w
       = if next_fault w
         then Returns ("", Some (ErrFailedToWrite p)) (interrupted p data w0)
         else if next_fault w1
         then Returns ("", Some (ErrFailedToRead p)) w2
         else match CryptProtectData P (blob_bytes data) with
              | None => Returns ("", Some ErrFailedToEncryptGenerated) w2
              | Some blob =>
                  if next_fault w2
                  then Returns ("", Some (ErrFailedToSave c)) (interrupted c blob w2)
                  else Returns (WordKey.formatWords words, None)
                         (set_disk (<[c := blob]> (<[p := data]> (disk w)))
                                   (after_io (EvWriteFile c blob) w2))
              end.
Proof.
  intros Hwl Hc Hp.
  destruct (generate256BitsKey_spec P wordsList (stat_both c p w) Hwl)
    as (words & Hgen & Hlen & Hall).
  exists words. split; [done|]. split; [done|]. split; [done|].
  intros data w0 w1 w2. unfold WordKey.New.
  destruct wordsList as [|x xs]; [done|]. cbn [length Nat.eqb].
  stat_files. unfold bind at 1. fold (stat_both c p w). rewrite Hgen.
  fold data. change (set_draws (draws (stat_both c p w) + 24) (stat_both c p w)) with w0.
  unfold bind at 1. unfold WriteFile.
  change (next_fault w0) with (next_fault w). destruct (next_fault w); [reflexivity|].
  cbn [negb]. change (disk w0) with (disk w). fold w1.
  unfold bind at 1. unfold ReadFile. destruct (next_fault w1); [reflexivity|].
  fold w2. replace (disk w1 !! p) with (Some data) by (symmetry; apply disk_lookup_insert_eq).
  unfold bind at 1. unfold WordKey.encryptData. unfold bind at 1.
  rewrite DataBlob_nonempty by (by apply Join_24_nonempty). unfold ret at 1.
  destruct (CryptProtectData P _) as [blob|]; [|reflexivity].
  unfold bind. unfold WriteFile. destruct (next_fault w2); reflexivity.
Qed.

(** *** The paths of [Get] *)

Lemma ByteKey_draw_chars_spec P n w :
  exists key,
    ByteKey.draw_chars P n w = Returns key (set_draws (draws w + n) w)
    /\ String.length key = n
    /\ Forall (fun ch => ch ∈ list_ascii_of_string ByteKey.characters)
              (list_ascii_of_string key).
Proof.
  revert w. induction n as [|n IH]; intros w.
  - exists "". simpl. unfold ret. rewrite Nat.add_0_r, set_draws_id.
    split; [done|]. split; [done | constructor].
  - cbn [ByteKey.draw_chars]. unfold bind at 1. unfold Intn.
    set (len := (Z.of_nat (String.length ByteKey.characters) - 1 - 0 + 1)%Z).
    assert (len = 84%Z) as Hlen by (vm_compute; reflexivity).
    destruct (Z.leb_spec len 0); [lia|].
    unfold bind at 1. unfold index.
    pose proof (Z.mod_pos_bound (Z.of_N (math_rand P (draws w))) len ltac:(lia)) as Hi.
    destruct (list_ascii_of_string ByteKey.characters !! _) as [ch|] eqn:E.
    2:{ apply lookup_ge_None in E. rewrite length_list_ascii_of_string in E.
        assert (String.length ByteKey.characters = 84%nat) as Hc by (vm_compute; reflexivity).
        rewrite Hc in E. lia. }
    unfold ret at 1. unfold bind at 1.
    destruct (IH (set_draws (S (draws w)) w)) as (rest & Hrest & Hlenr & Hall).
    rewrite Hrest. unfold ret. exists (String ch rest).
    split; [|split].
    + simpl draws. rewrite set_draws_set_draws. do 2 f_equal. lia.
    + simpl. congruence.
    + simpl. constructor; [|done]. by eapply list_elem_of_lookup_2.
Qed.

Lemma Get_cipher_path P c p w encryptedKey :
  disk w !! c = Some encryptedKey -> disk w !! p = None ->
  let w1 := after_io (EvReadFile c) (stat_both c p w) in
  ByteKey.Get P c p w
  = if next_fault w then Returns (None, Some (ErrFailedToRead c)) w1
    else match encryptedKey with
         | "" => Panics IndexOutOfRange w1
         | _ =>
             match CryptUnprotectData P (blob_bytes encryptedKey) with
             | None => Returns (None, Some (ErrFailedToDecrypt c)) w1
             | Some decryptedKey => Returns (Some decryptedKey, None) w1
             end
         end.
Proof.
  intros Hc Hp w1. unfold ByteKey.Get.
  stat_files. unfold bind at 1. unfold ReadFile.
  change (next_fault (log_event (EvStat p) (log_event (EvStat c) w))) with (next_fault w).
  change (disk (log_event _ _) !! c) with (disk w !! c).
  fold (stat_both c p w). fold w1. rewrite Hc.
  destruct (next_fault w); [reflexivity|].
  destruct encryptedKey as [|a blob]; [reflexivity|].
  unfold bind at 1. unfold ByteKey.decryptDataUsingDPAPI. unfold bind at 1.
  rewrite DataBlob_nonempty by done. unfold ret at 1.
  destruct (CryptUnprotectData P _); reflexivity.
Qed.

Lemma Get_plaintext_path P c p w content :
  disk w !! c = None -> disk w !! p = Some content ->
  let w1 := after_io (EvReadFile p) (stat_both c p w) in
  ByteKey.Get P c p w
  = if next_fault w then Returns (None, Some (ErrFailedToRead p)) w1
    else if negb (String.length content =? 32)%nat
    then Returns (None, Some (ErrNot32Characters content)) w1
    else match CryptProtectData P (blob_bytes content) with
         | None => Returns (None, Some (ErrFailedToEncrypt content)) w1
         | Some blob =>
             if next_fault w1
             then Returns (None, Some (ErrFailedToSave c)) (interrupted c blob w1)
             else Returns (None, Some (ErrBothKeyFiles p))
                    (set_disk (<[c := blob]> (disk w)) (after_io (EvWriteFile c blob) w1))
         end.
Proof.
  intros Hc Hp w1. unfold ByteKey.Get.
  stat_files. unfold bind at 1. unfold ReadFile.
  change (next_fault (log_event (EvStat p) (log_event (EvStat c) w))) with (next_fault w).
  change (disk (log_event _ _) !! p) with (disk w !! p). rewrite Hp.
  fold (stat_both c p w). fold w1.
  destruct (next_fault w); [reflexivity|].
  destruct (negb (String.length content =? 32)%nat) eqn:Hlen; [reflexivity|].
  unfold bind at 1. unfold ByteKey.encryptDataUsingDPAPI. unfold bind at 1.
  rewrite DataBlob_nonempty.
  2:{ apply negb_false_iff, Nat.eqb_eq in Hlen. by destruct content. }
  unfold ret at 1. destruct (CryptProtectData P _) as [blob|]; [|reflexivity].
  unfold bind. unfold WriteFile. destruct (next_fault w1); reflexivity.
Qed.

Lemma Get_empty_run P c p w key :
  disk w !! c = None -> disk w !! p = None ->
  ByteKey.draw_chars P 32 (stat_both c p w)
  = Returns key (set_draws (draws w + 32) (stat_both c p w)) ->
  String.length key = 32%nat ->
  let w0 := set_draws (draws w + 32) (stat_both c p w) in
  let w1 := set_disk (<[p := key]> (disk w)) (after_io (EvWriteFile p key) w0) in
  ByteKey.Get P c p w
  = if next_fault w
    then Returns (None, Some (ErrFailedToWrite p)) (interrupted p key w0)
    else match CryptProtectData P (blob_bytes key) with
         | None => Returns (None, Some ErrFailedToEncryptGenerated) w1
         | Some blob =>
             if next_fault w1
             then Returns (None, Some (ErrFailedToSave c)) (interrupted c blob w1)
             else Returns (Some key, None)
                    (set_disk (<[c := blob]> (<[p := key]> (disk w)))
                              (after_io (EvWriteFile c blob) w1))
         end.
Proof.
  intros Hc Hp Hgen Hlen w0 w1. unfold ByteKey.Get.
  stat_files. unfold bind at 1. fold (stat_both c p w).
  unfold ByteKey.generate256BitsKey. change (Z.to_nat 32) with 32%nat. rewrite Hgen.
  fold w0.
  unfold bind at 1. unfold WriteFile.
  change (next_fault w0) with (next_fault w). destruct (next_fault w); [reflexivity|].
  cbn [negb]. change (disk w0) with (disk w). fold w1.
  unfold bind at 1. unfold ByteKey.encryptDataUsingDPAPI. unfold bind at 1.
  rewrite DataBlob_nonempty by (by destruct key). unfold ret at 1.
  destruct (CryptProtectData P _) as [blob|]; [|reflexivity].
  unfold bind. unfold WriteFile. destruct (next_fault w1); reflexivity.
Qed.

Lemma Get_empty_path P c p w :
  disk w !! c = None -> disk w !! p = None ->
  exists key,
    String.length key = 32%nat
    /\ let w0 := set_draws (draws w + 32) (stat_both c p w) in
       let w1 := set_disk (<[p := key]> (disk w)) (after_io (EvWriteFile p key) w0) in
       ByteKey.Get P c p w
       = if next_fault w
         then Returns (None, Some (ErrFailedToWrite p)) (interrupted p key w0)
         else match CryptProtectData P (blob_bytes key) with
              | None => Returns (None, Some ErrFailedToEncryptGenerated) w1
              | Some blob =>
                  if next_fault w1
                  then Returns (None, Some (ErrFailedToSave c)) (interrupted c blob w1)
                  else Returns (Some key, None)
                         (set_disk (<[c := blob]> (<[p := key]> (disk w)))
                                   (after_io (EvWriteFile c blob) w1))
              end.
Proof.
  intros Hc Hp.
  destruct (ByteKey_draw_chars_spec P 32 (stat_both c p w)) as (key & Hgen & Hlen & _).
  exists key. split; [done|]. by apply Get_empty_run.
Qed.

(** *** The paths of [AccessKey] *)

Lemma AccessMsg_cipher_path P w encryptedKey :
  disk w !! "key.dat" = Some encryptedKey -> disk w !! "key.txt" = None ->
  let w1 := after_io (EvReadFile "key.dat") (stat_both "key.dat" "key.txt" w) in
  AccessMsg.AccessKey P w
  = if next_fault w then Returns (false, AccessMsg.Msg (ErrFailedToRead "key.dat")) w1
    else match encryptedKey with
         | "" => Panics IndexOutOfRange w1
         | _ =>
             match CryptUnprotectData P (blob_bytes encryptedKey) with
             | None => Returns (false, AccessMsg.Msg (ErrFailedToDecrypt "key.dat")) w1
             | Some decryptedKey =>
                 Returns (true, AccessMsg.MsgKeyLoaded)
                         (set_secureKey (Some (NewBufferFromBytes decryptedKey)) w1)
             end
         end.
Proof.
  intros Hc Hp w1. unfold AccessMsg.AccessKey.
  stat_files. unfold bind at 1. unfold ReadFile.
  change (next_fault (log_event _ (log_event _ w))) with (next_fault w).
  change (disk (log_event _ _) !! "key.dat") with (disk w !! "key.dat").
  fold (stat_both "key.dat" "key.txt" w). fold w1. rewrite Hc.
  destruct (next_fault w); [reflexivity|].
  destruct encryptedKey as [|a blob]; [reflexivity|].
  unfold bind at 1. unfold AccessMsg.decryptData. unfold bind at 1.
  rewrite DataBlob_nonempty by done. unfold ret at 1.
  destruct (CryptUnprotectData P _); reflexivity.
Qed.

Lemma AccessMsg_plaintext_path P w content :
  disk w !! "key.dat" = None -> disk w !! "key.txt" = Some content ->
  content <> "" ->
  let w1 := after_io (EvReadFile "key.txt") (stat_both "key.dat" "key.txt" w) in
  AccessMsg.AccessKey P w
  = if next_fault w then Returns (false, AccessMsg.Msg (ErrFailedToRead "key.txt")) w1
    else
    match CryptProtectData P (blob_bytes content) with
    | None => Returns (false, AccessMsg.Msg (ErrFailedToEncrypt "key.txt")) w1
    | Some blob =>
        if next_fault w1
        then Returns (false, AccessMsg.Msg (ErrFailedToSave "key.dat"))
                     (interrupted "key.dat" blob w1)
        else Returns (false, AccessMsg.Msg ErrPlaintextEncrypted)
               (set_disk (<["key.dat" := blob]> (disk w))
                         (after_io (EvWriteFile "key.dat" blob) w1))
    end.
Proof.
  intros Hc Hp Hne w1. unfold AccessMsg.AccessKey.
  stat_files. unfold bind at 1. unfold ReadFile.
  change (next_fault (log_event _ (log_event _ w))) with (next_fault w).
  change (disk (log_event _ _) !! "key.txt") with (disk w !! "key.txt").
  rewrite Hp. fold (stat_both "key.dat" "key.txt" w). fold w1.
  destruct (next_fault w); [reflexivity|].
  unfold bind at 1. unfold AccessMsg.encryptData. unfold bind at 1.
  rewrite DataBlob_nonempty by done.
  unfold ret at 1. destruct (CryptProtectData P _) as [blob|]; [|reflexivity].
  unfold bind. unfold WriteFile. destruct (next_fault w1); reflexivity.
Qed.

Lemma AccessBytes_cipher_path P w encryptedKey :
  disk w !! "key.dat" = Some encryptedKey -> disk w !! "key.txt" = None ->
  let w1 := after_io (EvReadFile "key.dat") (stat_both "key.dat" "key.txt" w) in
  AccessBytes.AccessKey P w
  = if next_fault w then Returns (None, Some (ErrFailedToRead "key.dat")) w1
    else match encryptedKey with
         | "" => Panics IndexOutOfRange w1
         | _ =>
             match CryptUnprotectData P (blob_bytes encryptedKey) with
             | None => Returns (None, Some (ErrFailedToDecrypt "key.dat")) w1
             | Some decryptedKey => Returns (Some decryptedKey, None) w1
             end
         end.
Proof.
  intros Hc Hp w1. unfold AccessBytes.AccessKey.
  stat_files. unfold bind at 1. unfold ReadFile.
  change (next_fault (log_event _ (log_event _ w))) with (next_fault w).
  change (disk (log_event _ _) !! "key.dat") with (disk w !! "key.dat").
  fold (stat_both "key.dat" "key.txt" w). fold w1. rewrite Hc.
  destruct (next_fault w); [reflexivity|].
  destruct encryptedKey as [|a blob]; [reflexivity|].
  unfold bind at 1. unfold AccessBytes.decryptData. unfold bind at 1.
  rewrite DataBlob_nonempty by done. unfold ret at 1.
  destruct (CryptUnprotectData P _); reflexivity.
Qed.

Lemma AccessBytes_plaintext_path P w content :
  disk w !! "key.dat" = None -> disk w !! "key.txt" = Some content ->
  content <> "" ->
  let w1 := after_io (EvReadFile "key.txt") (stat_both "key.dat" "key.txt" w) in
  AccessBytes.AccessKey P w
  = if next_fault w then Returns (None, Some (ErrFailedToRead "key.txt")) w1
    else
    match CryptProtectData P (blob_bytes content) with
    | None => Returns (None, Some (ErrFailedToEncrypt "key.txt")) w1
    | Some blob =>
        if next_fault w1
        then Returns (None, Some (ErrFailedToSave "key.dat"))
                     (interrupted "key.dat" blob w1)
        else Returns (Some content, Some ErrPlaintextEncrypted)
               (set_disk (<["key.dat" := blob]> (disk w))
                         (after_io (EvWriteFile "key.dat" blob) w1))
    end.
Proof.
  intros Hc Hp Hne w1. unfold AccessBytes.AccessKey.
  stat_files. unfold bind at 1. unfold ReadFile.
  change (next_fault (log_event _ (log_event _ w))) with (next_fault w).
  change (disk (log_event _ _) !! "key.txt") with (disk w !! "key.txt").
  rewrite Hp. fold (stat_both "key.dat" "key.txt" w). fold w1.
  destruct (next_fault w); [reflexivity|].
  unfold bind at 1. unfold AccessBytes.encryptData. unfold bind at 1.
  rewrite DataBlob_nonempty by done.
  unfold ret at 1. destruct (CryptProtectData P _) as [blob|]; [|reflexivity].
  unfold bind. unfold WriteFile. destruct (next_fault w1); reflexivity.
Qed.

(** ** The plaintext file is validated *)

Lemma check_fails_iff wordsList (tokens : list string) :
  negb (length tokens =? 24)%nat || negb (WordKey.validateWords wordsList tokens) = true
  <-> length tokens <> 24%nat \/ exists t, t ∈ tokens /\ t ∉ wordsList.
Proof.
  rewrite orb_true_iff, !negb_true_iff, Nat.eqb_neq.
  rewrite <- not_true_iff_false, validateWords_spec.
  split; (intros [H|H]; [by left | right]).
  - apply not_Forall_Exists in H; [|intros x; apply _].
    apply Exists_exists in H. done.
  - intros Hall. destruct H as (t & Ht & Hnot).
    rewrite Forall_forall in Hall. auto.
Qed.

(** C7.  [New] reads a plaintext file through [strings.Fields] and
    accepts it exactly when there are 24 fields and [validateWords]
    finds each of them in [wordsList]: a file with another number of
    fields, or with a field that is no word of the list, is refused with
    the "must contain exactly 24 valid words" error and nothing is
    changed; a file of 24 words of the list passes on to encryption, and
    is encrypted into the cipher file when DPAPI and the write
    succeed. *)
Theorem C7_plaintext_validation :
  forall P wordsList c p w content,
    wordsList <> [] ->
    disk w !! c = None -> disk w !! p = Some content -> next_fault w = false ->
    let tokens := Fields content in
    let w1 := after_io (EvReadFile p) (stat_both c p w) in
    (WordKey.validateWords wordsList tokens = true
     <-> forall t, t ∈ tokens -> t ∈ wordsList)
    /\ (length tokens <> 24%nat \/ (exists t, t ∈ tokens /\ t ∉ wordsList) ->
        WordKey.New P wordsList c p w
        = Returns ("", Some (ErrNot24ValidWords content)) w1
        /\ disk w1 = disk w /\ secureKey w1 = secureKey w)
    /\ (length tokens = 24%nat -> (forall t, t ∈ tokens -> t ∈ wordsList) ->
        exists r w',
          WordKey.New P wordsList c p w = Returns r w'
          /\ r.2 <> Some (ErrNot24ValidWords content)
          /\ (forall blob,
                CryptProtectData P (blob_bytes (Join tokens " ")) = Some blob ->
                next_fault w1 = false ->
                r = ("", None) /\ disk w' = <[c := blob]> (disk w))).
Proof.
  intros P wordsList c p w content Hwl Hc Hp Hf tokens w1.
  pose proof (New_plaintext_path P wordsList c p w content Hwl Hc Hp) as HNew.
  cbv zeta in HNew. fold tokens w1 in HNew. rewrite Hf in HNew.
  split; [rewrite validateWords_spec; apply Forall_forall|].
  split.
  - intros Hbad. apply check_fails_iff in Hbad. rewrite Hbad in HNew. done.
  - intros Hlen Hall.
    destruct (negb (length tokens =? 24)%nat
              || negb (WordKey.validateWords wordsList tokens)) eqn:Hchk.
    { apply check_fails_iff in Hchk as [H|(t & Ht & Hnot)]; [done | by destruct Hnot; auto]. }
    destruct (CryptProtectData P (blob_bytes (Join tokens " "))) as [blob|] eqn:Henc.
    + destruct (next_fault w1) eqn:Hf1; eexists _, _; (split; [exact HNew|]);
        (split; [simpl; congruence|]); intros blob' [= <-] Hnf; [done|].
      split; reflexivity.
    + eexists _, _. split; [exact HNew|]. split; [simpl; congruence|].
      intros blob' [=].
Qed.

Lemma C7_plaintext_validation_witness :
  WordKey.New fakeP testWordsList "key.dat" "key.txt"
              (world_of (<["key.txt" := "alpha bravo zulu"]> ∅))
  = Returns ("", Some (ErrNot24ValidWords "alpha bravo zulu"))
            (after_io (EvReadFile "key.txt")
               (stat_both "key.dat" "key.txt"
                  (world_of (<["key.txt" := "alpha bravo zulu"]> ∅))))
  /\ exists r w',
       WordKey.New fakeP testWordsList "key.dat" "key.txt" plain_world = Returns r w'
       /\ r.2 <> Some (ErrNot24ValidWords (Join testWordsList " ")).
Proof.
  split.
  - refine (proj1 (proj1 (proj2 (C7_plaintext_validation fakeP testWordsList
             "key.dat" "key.txt" (world_of (<["key.txt" := "alpha bravo zulu"]> ∅))
             "alpha bravo zulu" _ _ _ _)) _)).
    + discriminate.
    + vm_compute; reflexivity.
    + vm_compute; reflexivity.
    + reflexivity.
    + left. vm_compute. discriminate.
  - destruct (proj2 (proj2 (C7_plaintext_validation fakeP testWordsList
             "key.dat" "key.txt" plain_world (Join testWordsList " ")
             ltac:(discriminate) ltac:(vm_compute; reflexivity)
             ltac:(vm_compute; reflexivity) eq_refl)))
      as (r & w' & H1 & H2 & _).
    + vm_compute. reflexivity.
    + intros t Ht. change (Fields (Join testWordsList " "))
        with (Fields (Join testWordsList " ")) in Ht.
      replace (Fields (Join testWordsList " ")) with testWordsList in Ht
        by (vm_compute; reflexivity).
      exact Ht.
    + exists r, w'. exact (conj H1 H2).
Defined.

(** ** Only the plaintext file present *)

(** A valid plaintext file is encrypted into the cipher file and left
    in place, and [New] returns [("", nil)]: no error, no message. *)
Lemma New_plaintext_only_migrates P wordsList c p w content blob :
  wordsList <> [] ->
  disk w !! c = None -> disk w !! p = Some content ->
  next_fault w = false -> next_fault (after_io (EvReadFile p) w) = false ->
  length (Fields content) = 24%nat ->
  (forall t, t ∈ Fields content -> t ∈ wordsList) ->
  CryptProtectData P (blob_bytes (Join (Fields content) " ")) = Some blob ->
  exists w',
    WordKey.New P wordsList c p w = Returns ("", None) w'
    /\ disk w' = <[c := blob]> (disk w)
    /\ disk w' !! p = Some content
    /\ secureKey w' = secureKey w.
Proof.
  intros Hwl Hc Hp Hf Hf1 Hlen Hall Henc.
  pose proof (New_plaintext_path P wordsList c p w content Hwl Hc Hp) as HNew.
  cbv zeta in HNew. rewrite Hf in HNew.
  destruct (negb (length (Fields content) =? 24)%nat
            || negb (WordKey.validateWords wordsList (Fields content))) eqn:Hchk.
  { apply check_fails_iff in Hchk as [H|(t & Ht & Hnot)]; [done | by destruct Hnot; auto]. }
  rewrite Henc in HNew.
  change (next_fault (after_io (EvReadFile p) (stat_both c p w)))
    with (next_fault (after_io (EvReadFile p) w)) in HNew.
  rewrite Hf1 in HNew. eexists. split; [exact HNew|].
  split; [reflexivity|]. split; [|reflexivity].
  change (<[c := blob]> (disk w) !! p = Some content).
  rewrite disk_lookup_insert_other; [done | congruence].
Qed.

(** [Get] does the same and returns its both-key-files error, which
    tells the caller to copy the plaintext file away and remove it. *)
Lemma Get_plaintext_only_warns P c p w content blob :
  disk w !! c = None -> disk w !! p = Some content ->
  next_fault w = false -> next_fault (after_io (EvReadFile p) w) = false ->
  String.length content = 32%nat ->
  CryptProtectData P (blob_bytes content) = Some blob ->
  exists w',
    ByteKey.Get P c p w = Returns (None, Some (ErrBothKeyFiles p)) w'
    /\ disk w' = <[c := blob]> (disk w)
    /\ disk w' !! p = Some content.
Proof.
  intros Hc Hp Hf Hf1 Hlen Henc.
  pose proof (Get_plaintext_path P c p w content Hc Hp) as HGet.
  cbv zeta in HGet. rewrite Hf, Hlen, Henc in HGet.
  change (next_fault (after_io (EvReadFile p) (stat_both c p w)))
    with (next_fault (after_io (EvReadFile p) w)) in HGet.
  rewrite Hf1 in HGet. eexists. split; [exact HGet|]. split; [reflexivity|].
  change (<[c := blob]> (disk w) !! p = Some content).
  rewrite disk_lookup_insert_other; [done | congruence].
Qed.

(** [AccessKey] does the same and returns its "remove key.txt" message. *)
Lemma AccessMsg_plaintext_only_warns P w content blob :
  disk w !! "key.dat" = None -> disk w !! "key.txt" = Some content ->
  next_fault w = false -> next_fault (after_io (EvReadFile "key.txt") w) = false ->
  content <> "" ->
  CryptProtectData P (blob_bytes content) = Some blob ->
  exists w',
    AccessMsg.AccessKey P w = Returns (false, AccessMsg.Msg ErrPlaintextEncrypted) w'
    /\ disk w' = <["key.dat" := blob]> (disk w)
    /\ disk w' !! "key.txt" = Some content.
Proof.
  intros Hc Hp Hf Hf1 Hne Henc.
  pose proof (AccessMsg_plaintext_path P w content Hc Hp Hne) as HAcc.
  cbv zeta in HAcc. rewrite Hf, Henc in HAcc.
  change (next_fault (after_io (EvReadFile "key.txt") (stat_both "key.dat" "key.txt" w)))
    with (next_fault (after_io (EvReadFile "key.txt") w)) in HAcc.
  rewrite Hf1 in HAcc. eexists. split; [exact HAcc|]. split; [reflexivity|].
  change (<["key.dat" := blob]> (disk w) !! "key.txt" = Some content).
  rewrite disk_lookup_insert_other; [done | congruence].
Qed.

(** C4, at the failing input.  The word list of the tests, its 24 words
    in [key.txt], no [key.dat], DPAPI and the disk working: [New] writes
    [key.dat] and keeps [key.txt], but it returns [("", nil)] where a
    warning about the plaintext file is due, and no key is loaded. *)
Theorem C4_New_migrates_without_warning :
  custody (disk plain_world) "key.dat" "key.txt" = PlaintextOnly
  /\ exists w',
       WordKey.New fakeP testWordsList "key.dat" "key.txt" plain_world
       = Returns ("", None) w'
       /\ disk w' !! "key.dat" = fake_protect (Join testWordsList " ")
       /\ disk w' !! "key.txt" = Some (Join testWordsList " ")
       /\ secureKey w' = None.
Proof.
  split; [vm_compute; reflexivity|].
  eexists. split; [vm_compute; reflexivity|].
  split; [vm_compute; reflexivity|]. split; vm_compute; reflexivity.
Qed.

(** ** Only the cipher file present *)

(** C3 as stated fails for [Get]: with only the cipher file present and
    a blob that DPAPI accepts, [Get] hands the decrypted key to its
    caller and loads nothing into [secureKey]. *)
Lemma C3_Get_returns_key_counterexample :
  custody (disk cipher_world) "key.dat" "key.txt" = CiphertextOnly
  /\ exists w',
       ByteKey.Get fakeP "key.dat" "key.txt" cipher_world
       = Returns (Some "correct horse battery staple", None) w'
       /\ secureKey w' = None.
Proof.
  split; [vm_compute; reflexivity|].
  eexists. split; vm_compute; reflexivity.
Qed.

(** An empty cipher file never reaches DPAPI: taking the address of
    its first byte panics, in [New] as in [Get]. *)
Lemma empty_cipher_file_panics P wordsList c p w :
  wordsList <> [] -> disk w !! c = Some "" -> disk w !! p = None ->
  next_fault w = false ->
  WordKey.New P wordsList c p w
  = Panics IndexOutOfRange (after_io (EvReadFile c) (stat_both c p w))
  /\ ByteKey.Get P c p w
     = Panics IndexOutOfRange (after_io (EvReadFile c) (stat_both c p w)).
Proof.
  intros Hwl Hc Hp Hf.
  rewrite (New_cipher_path P wordsList c p w "") by done.
  rewrite (Get_cipher_path P c p w "") by done.
  cbv zeta. by rewrite Hf.
Qed.

(** C3, amended.  With only the cipher file present, readable and not
    empty: when DPAPI accepts the blob, [New] loads the decrypted key
    into [secureKey] and returns no plaintext, while [Get], which keeps
    no key in memory, returns the decrypted key to its caller; when
    DPAPI rejects the blob, both fail with the "failed to decrypt"
    error.  In every case the disk is as before, and after a rejection
    so is [secureKey]. *)
Theorem C3_cipher_only :
  forall P wordsList c p w blob,
    wordsList <> [] ->
    disk w !! c = Some blob -> disk w !! p = None ->
    next_fault w = false -> blob <> "" ->
    let w1 := after_io (EvReadFile c) (stat_both c p w) in
    (forall key, CryptUnprotectData P (blob_bytes blob) = Some key ->
       WordKey.New P wordsList c p w
       = Returns ("", None) (set_secureKey (Some (NewBufferFromBytes key)) w1)
       /\ ByteKey.Get P c p w = Returns (Some key, None) w1)
    /\ (CryptUnprotectData P (blob_bytes blob) = None ->
        WordKey.New P wordsList c p w
        = Returns ("", Some (ErrFailedToDecrypt "key.dat")) w1
        /\ ByteKey.Get P c p w = Returns (None, Some (ErrFailedToDecrypt c)) w1)
    /\ disk w1 = disk w
    /\ secureKey w1 = secureKey w
    /\ trace w1 = trace w ++ [EvStat c; EvStat p; EvReadFile c].
Proof.
  intros P wordsList c p w blob Hwl Hc Hp Hf Hne w1.
  pose proof (New_cipher_path P wordsList c p w blob Hwl Hc Hp) as HNew.
  pose proof (Get_cipher_path P c p w blob Hc Hp) as HGet.
  cbv zeta in HNew, HGet. fold w1 in HNew, HGet. rewrite Hf in HNew, HGet.
  destruct blob as [|a blob]; [done|].
  split; [|split].
  - intros key Hkey. rewrite Hkey in HNew, HGet. done.
  - intros Hrej. rewrite Hrej in HNew, HGet. done.
  - split; [reflexivity|]. split; [reflexivity|].
    simpl. by rewrite <- !app_assoc.
Qed.

Lemma C3_cipher_only_witness :
  WordKey.New fakeP testWordsList "key.dat" "key.txt" cipher_world
  = Returns ("", None)
      (set_secureKey (Some (NewBufferFromBytes "correct horse battery staple"))
         (after_io (EvReadFile "key.dat") (stat_both "key.dat" "key.txt" cipher_world)))
  /\ WordKey.New fakeP testWordsList "key.dat" "key.txt" corrupt_world
     = Returns ("", Some (ErrFailedToDecrypt "key.dat"))
         (after_io (EvReadFile "key.dat") (stat_both "key.dat" "key.txt" corrupt_world)).
Proof.
  split.
  - refine (proj1 (proj1 (C3_cipher_only fakeP testWordsList "key.dat" "key.txt"
              cipher_world "DPAPI:correct horse battery staple" _ _ _ _ _) _ _)).
    + discriminate.
    + vm_compute; reflexivity.
    + vm_compute; reflexivity.
    + reflexivity.
    + discriminate.
    + vm_compute; reflexivity.
  - refine (proj1 (proj1 (proj2 (C3_cipher_only fakeP testWordsList "key.dat" "key.txt"
              corrupt_world "garbage" _ _ _ _ _)) _)).
    + discriminate.
    + vm_compute; reflexivity.
    + vm_compute; reflexivity.
    + reflexivity.
    + discriminate.
    + vm_compute; reflexivity.
Defined.

(** ** No file present: the order of generation *)

Lemma same_file_sym (d : Disk) a b : same_file d a b -> same_file d b a.
Proof. unfold same_file. congruence. Qed.

Lemma custody_after_plaintext_write (d : Disk) c p data :
  ~ same_file d c p -> d !! c = None -> custody (<[p := data]> d) c p = PlaintextOnly.
Proof.
  intros Hne Hc. apply custody_PlaintextOnly.
  rewrite disk_lookup_insert_ne by (intros H; by apply Hne, same_file_sym).
  rewrite disk_lookup_insert_eq. eauto.
Qed.

Lemma custody_after_both_writes (d : Disk) c p data blob :
  custody (<[c := blob]> (<[p := data]> d)) c p = Both.
Proof.
  apply custody_Both. rewrite disk_lookup_insert_eq. split; [eauto|].
  destruct (decide (resolve d c = resolve d p)) as [Hsame|Hne].
  - rewrite disk_lookup_insert_same by done. eauto.
  - rewrite disk_lookup_insert_ne by done. rewrite disk_lookup_insert_eq. eauto.
Qed.

Lemma custody_after_plaintext_write_nonempty (d : Disk) c p data :
  custody (<[p := data]> d) c p <> Empty.
Proof.
  intros [_ H]%custody_Empty. by rewrite disk_lookup_insert_eq in H.
Qed.

Lemma nth_fault_after_io k e w : nth_fault k (after_io e w) = nth_fault (S k) w.
Proof.
  unfold nth_fault. change (faults (after_io e w)) with (tl (faults w)).
  destruct (faults w); [by destruct k | reflexivity].
Qed.

Lemma next_fault_false w : next_fault w = false <-> nth_fault 0 w = NoFault.
Proof. unfold next_fault. by destruct (nth_fault 0 w). Qed.

(** With neither file present, a word list, no failing file operation
    and a DPAPI that encrypts, [New] returns the words it generated. *)
Lemma New_generates P wordsList c p w :
  wordsList <> [] -> custody (disk w) c p = Empty ->
  exists words,
    length words = 24%nat
    /\ WordKey.generate256BitsKey P wordsList (stat_both c p w)
       = Returns words (set_draws (draws w + 24) (stat_both c p w))
    /\ forall blob,
         nth_fault 0 w = NoFault -> nth_fault 1 w = NoFault ->
         nth_fault 2 w = NoFault ->
         CryptProtectData P (blob_bytes (Join words " ")) = Some blob ->
         exists w',
           WordKey.New P wordsList c p w = Returns (WordKey.formatWords words, None) w'
           /\ disk w' = <[c := blob]> (<[p := Join words " "]> (disk w)).
Proof.
  intros Hwl [Hc Hp]%custody_Empty.
  destruct (New_empty_path P wordsList c p w Hwl Hc Hp)
    as (words & Hlen & Hall & Hgen & HNew).
  exists words. split; [done|]. split; [done|].
  intros blob H0 H1 H2 Henc. cbv zeta in HNew. revert HNew.
  set (data := Join words " ") in *.
  set (w0 := set_draws (draws w + 24) (stat_both c p w)).
  set (w1 := set_disk (<[p := data]> (disk w)) (after_io (EvWriteFile p data) w0)).
  set (w2 := after_io (EvReadFile p) w1).
  intros HNew.
  assert (nth_fault 0 w1 = nth_fault 1 w) as F1
      by apply (nth_fault_after_io 0 (EvWriteFile p data) w0).
  assert (nth_fault 0 w2 = nth_fault 2 w) as F2.
  { unfold w2. rewrite nth_fault_after_io.
    apply (nth_fault_after_io 1 (EvWriteFile p data) w0). }
  apply next_fault_false in H0. rewrite <- F1 in H1. rewrite <- F2 in H2.
  apply next_fault_false in H1, H2. rewrite H0, H1, Henc, H2 in HNew.
  eexists. split; [exact HNew | reflexivity].
Qed.

(** So does [Get], with the characters it generated. *)
Lemma Get_generates P c p w :
  custody (disk w) c p = Empty ->
  exists key,
    String.length key = 32%nat
    /\ ByteKey.generate256BitsKey P 32 (stat_both c p w)
       = Returns key (set_draws (draws w + 32) (stat_both c p w))
    /\ forall blob,
         nth_fault 0 w = NoFault -> nth_fault 1 w = NoFault ->
         CryptProtectData P (blob_bytes key) = Some blob ->
         exists w',
           ByteKey.Get P c p w = Returns (Some key, None) w'
           /\ disk w' = <[c := blob]> (<[p := key]> (disk w)).
Proof.
  intros [Hc Hp]%custody_Empty.
  destruct (ByteKey_draw_chars_spec P 32 (stat_both c p w)) as (key & Hgen & Hlen & _).
  exists key. split; [done|]. split; [exact Hgen|].
  intros blob H0 H1 Henc.
  pose proof (Get_empty_run P c p w key Hc Hp Hgen Hlen) as HGet.
  cbv zeta in HGet. revert HGet.
  set (w0 := set_draws (draws w + 32) (stat_both c p w)).
  set (w1 := set_disk (<[p := key]> (disk w)) (after_io (EvWriteFile p key) w0)).
  intros HGet.
  assert (nth_fault 0 w1 = nth_fault 1 w) as F1
      by apply (nth_fault_after_io 0 (EvWriteFile p key) w0).
  apply next_fault_false in H0. rewrite <- F1 in H1. apply next_fault_false in H1.
  rewrite H0, Henc, H1 in HGet.
  eexists. split; [exact HGet | reflexivity].
Qed.

(** C6 as stated fails when the cipher write fails after [os.WriteFile]
    has created the file: the plaintext write has succeeded, the call
    fails, and the disk holds both files, the cipher file with none of
    the blob in it. *)
Lemma C6_torn_cipher_write_counterexample :
  custody (disk torn_world) "key.dat" "key.txt" = Empty
  /\ exists words blob w',
       WordKey.generate256BitsKey fakeP testWordsList
         (stat_both "key.dat" "key.txt" torn_world)
       = Returns words (set_draws 24 (stat_both "key.dat" "key.txt" torn_world))
       /\ WordKey.New fakeP testWordsList "key.dat" "key.txt" torn_world
          = Returns ("", Some (ErrFailedToSave "key.dat")) w'
       /\ trace w' = [EvStat "key.dat"; EvStat "key.txt";
                      EvWriteFile "key.txt" (Join words " ");
                      EvReadFile "key.txt"; EvWriteFile "key.dat" blob]
       /\ disk w' !! "key.txt" = Some (Join words " ")
       /\ disk w' !! "key.dat" = Some ""
       /\ custody (disk w') "key.dat" "key.txt" = Both
       /\ custody (disk w') "key.dat" "key.txt" <> PlaintextOnly.
Proof.
  split; [vm_compute; reflexivity|].
  eexists _, _, _. split; [vm_compute; reflexivity|].
  split; [vm_compute; reflexivity|].
  split; [vm_compute; reflexivity|].
  split; [vm_compute; reflexivity|].
  split; [vm_compute; reflexivity|].
  split; vm_compute; [reflexivity | discriminate].
Qed.

(** C6, amended.  With neither file present, [New] and [Get] return.
    When no file operation fails and DPAPI encrypts, they return the
    key they generated; when they return a key they have written it to
    the plaintext file and then its encryption to the cipher file, in
    this order and both before returning.  When the plaintext write has
    succeeded and the call fails all the same (the encryption, the
    cipher write or, in [New], the reading back of the plaintext file
    fails), the disk is not left empty; the two paths naming different
    files, the plaintext file holds the key and is there alone, unless
    the failure is that of the cipher write with the file already
    created, which leaves both files. *)
Theorem C6_generation_order :
  forall P wordsList c p w,
    wordsList <> [] -> custody (disk w) c p = Empty ->
    ((exists r w', WordKey.New P wordsList c p w = Returns r w')
     /\ exists words,
          WordKey.generate256BitsKey P wordsList (stat_both c p w)
          = Returns words (set_draws (draws w + 24) (stat_both c p w))
          /\ (forall blob,
                nth_fault 0 w = NoFault -> nth_fault 1 w = NoFault ->
                nth_fault 2 w = NoFault ->
                CryptProtectData P (blob_bytes (Join words " ")) = Some blob ->
                exists w',
                  WordKey.New P wordsList c p w
                  = Returns (WordKey.formatWords words, None) w')
          /\ (forall rep w',
                WordKey.New P wordsList c p w = Returns (rep, None) w' ->
                rep = WordKey.formatWords words
                /\ exists blob,
                     CryptProtectData P (blob_bytes (Join words " ")) = Some blob
                     /\ trace w' = trace w ++ [EvStat c; EvStat p;
                                               EvWriteFile p (Join words " ");
                                               EvReadFile p; EvWriteFile c blob]
                     /\ disk w' = <[c := blob]> (<[p := Join words " "]> (disk w))
                     /\ custody (disk w') c p = Both)
          /\ (nth_fault 0 w = NoFault ->
              forall rep e w',
                WordKey.New P wordsList c p w = Returns (rep, Some e) w' ->
                custody (disk w') c p <> Empty
                /\ (~ same_file (disk w) c p ->
                    disk w' !! p = Some (Join words " ")
                    /\ (custody (disk w') c p = PlaintextOnly
                        \/ custody (disk w') c p = Both)
                    /\ (custody (disk w') c p = Both
                        <-> e = ErrFailedToSave c
                            /\ exists written, nth_fault 2 w = FailsAfter written))))
    /\ ((exists r w', ByteKey.Get P c p w = Returns r w')
        /\ exists key,
             ByteKey.generate256BitsKey P 32 (stat_both c p w)
             = Returns key (set_draws (draws w + 32) (stat_both c p w))
             /\ (forall blob,
                   nth_fault 0 w = NoFault -> nth_fault 1 w = NoFault ->
                   CryptProtectData P (blob_bytes key) = Some blob ->
                   exists w', ByteKey.Get P c p w = Returns (Some key, None) w')
             /\ (forall key' e w',
                   ByteKey.Get P c p w = Returns (Some key', e) w' ->
                   key' = key /\ e = None
                   /\ exists blob,
                        CryptProtectData P (blob_bytes key) = Some blob
                        /\ trace w' = trace w ++ [EvStat c; EvStat p; EvWriteFile p key;
                                                  EvWriteFile c blob]
                        /\ disk w' = <[c := blob]> (<[p := key]> (disk w))
                        /\ custody (disk w') c p = Both)
             /\ (nth_fault 0 w = NoFault ->
                 forall r e w',
                   ByteKey.Get P c p w = Returns (r, Some e) w' ->
                   custody (disk w') c p <> Empty
                   /\ (~ same_file (disk w) c p ->
                       disk w' !! p = Some key
                       /\ (custody (disk w') c p = PlaintextOnly
                           \/ custody (disk w') c p = Both)
                       /\ (custody (disk w') c p = Both
                           <-> e = ErrFailedToSave c
                               /\ exists written, nth_fault 1 w = FailsAfter written)))).
Proof.
  intros P wordsList c p w Hwl [Hc Hp]%custody_Empty.
  assert (forall data w',
            disk w' = <[p := data]> (disk w) ->
            custody (disk w') c p <> Empty
            /\ (~ same_file (disk w) c p ->
                disk w' !! p = Some data
                /\ (custody (disk w') c p = PlaintextOnly
                    \/ custody (disk w') c p = Both)
                /\ custody (disk w') c p <> Both)) as Hplain.
  { intros data w' ->. split; [apply custody_after_plaintext_write_nonempty|].
    intros Hne. split; [apply disk_lookup_insert_eq|].
    rewrite custody_after_plaintext_write by done.
    split; [by left | discriminate]. }
  assert (forall data blob w',
            disk w' = <[c := blob]> (<[p := data]> (disk w)) ->
            custody (disk w') c p = Both
            /\ (~ same_file (disk w) c p -> disk w' !! p = Some data)) as Hboth.
  { intros data blob w' ->. split; [apply custody_after_both_writes|].
    intros Hne. rewrite disk_lookup_insert_ne by exact Hne.
    apply disk_lookup_insert_eq. }
  split.
  - destruct (New_empty_path P wordsList c p w Hwl Hc Hp)
      as (words & Hlen & Hall & Hgen & HNew).
    cbv zeta in HNew. revert HNew.
    set (data := Join words " ").
    set (w0 := set_draws (draws w + 24) (stat_both c p w)).
    set (w1 := set_disk (<[p := data]> (disk w)) (after_io (EvWriteFile p data) w0)).
    set (w2 := after_io (EvReadFile p) w1).
    intros HNew.
    assert (nth_fault 0 w1 = nth_fault 1 w) as F1
        by apply (nth_fault_after_io 0 (EvWriteFile p data) w0).
    assert (nth_fault 0 w2 = nth_fault 2 w) as F2.
    { unfold w2. rewrite nth_fault_after_io.
      apply (nth_fault_after_io 1 (EvWriteFile p data) w0). }
    split.
    { rewrite HNew.
      destruct (next_fault w); [by eexists _, _|].
      destruct (next_fault w1); [by eexists _, _|].
      destruct (CryptProtectData P _); [|by eexists _, _].
      destruct (next_fault w2); by eexists _, _. }
    exists words. split; [exact Hgen|]. split; [|split].
    + intros blob H0 H1 H2 Henc. fold data in Henc. rewrite HNew.
      apply next_fault_false in H0. rewrite <- F1 in H1. rewrite <- F2 in H2.
      apply next_fault_false in H1, H2. rewrite H0, H1, Henc, H2. by eexists.
    + intros rep w'. rewrite HNew.
      destruct (next_fault w); [discriminate|].
      destruct (next_fault w1); [discriminate|].
      destruct (CryptProtectData P _) as [blob|] eqn:Henc; [|discriminate].
      destruct (next_fault w2); [discriminate|].
      intros [= <- <-]. split; [reflexivity|]. exists blob.
      split; [reflexivity|]. split; [|split].
      * simpl. by rewrite <- !app_assoc.
      * reflexivity.
      * apply custody_after_both_writes.
    + intros H0 rep e w'. rewrite HNew.
      apply next_fault_false in H0. rewrite H0.
      destruct (next_fault w1).
      { intros [= <- <- <-]. destruct (Hplain data w2 eq_refl) as [Hne Hd].
        split; [done|]. intros Hdiff. destruct (Hd Hdiff) as (Hpd & Hor & Hnb).
        split; [done|]. split; [done|]. split; [done | by intros [[=] _]]. }
      destruct (CryptProtectData P _) as [blob|].
      2:{ intros [= <- <- <-]. destruct (Hplain data w2 eq_refl) as [Hne Hd].
          split; [done|]. intros Hdiff. destruct (Hd Hdiff) as (Hpd & Hor & Hnb).
          split; [done|]. split; [done|]. split; [done | by intros [[=] _]]. }
      destruct (next_fault w2) eqn:Hf2; [|discriminate].
      intros [= <- <- <-]. unfold interrupted. rewrite F2.
      destruct (nth_fault 2 w) as [| |written] eqn:Hk.
      * apply next_fault_false in F2. congruence.
      * destruct (Hplain data (after_io (EvWriteFile c blob) w2) eq_refl) as [Hne Hd].
        split; [done|]. intros Hdiff. destruct (Hd Hdiff) as (Hpd & Hor & Hnb).
        split; [done|]. split; [done|]. split; [done | by intros [_ [? [=]]]].
      * match goal with
        | |- context [custody (disk ?x) c p] =>
            destruct (Hboth data (String.substring 0 written blob) x eq_refl)
              as [Hb Hpd]
        end.
        rewrite Hb. split; [discriminate|]. intros Hdiff.
        split; [by apply Hpd|]. split; [by right|]. split; [eauto | done].
  - destruct (ByteKey_draw_chars_spec P 32 (stat_both c p w)) as (key & Hgen & Hlen & _).
    pose proof (Get_empty_run P c p w key Hc Hp Hgen Hlen) as HGet.
    cbv zeta in HGet. revert HGet.
    set (w0 := set_draws (draws w + 32) (stat_both c p w)).
    set (w1 := set_disk (<[p := key]> (disk w)) (after_io (EvWriteFile p key) w0)).
    intros HGet.
    assert (nth_fault 0 w1 = nth_fault 1 w) as F1
        by apply (nth_fault_after_io 0 (EvWriteFile p key) w0).
    split.
    { rewrite HGet.
      destruct (next_fault w); [by eexists _, _|].
      destruct (CryptProtectData P _); [|by eexists _, _].
      destruct (next_fault w1); by eexists _, _. }
    exists key. split; [exact Hgen|]. split; [|split].
    + intros blob H0 H1 Henc. rewrite HGet.
      apply next_fault_false in H0. rewrite <- F1 in H1. apply next_fault_false in H1.
      rewrite H0, Henc, H1. by eexists.
    + intros key1 e w'. rewrite HGet.
      destruct (next_fault w); [discriminate|].
      destruct (CryptProtectData P _) as [blob|] eqn:Henc; [|discriminate].
      destruct (next_fault w1); [discriminate|].
      intros [= <- <- <-]. split; [reflexivity|]. split; [reflexivity|].
      exists blob. split; [reflexivity|]. split; [|split].
      * simpl. by rewrite <- !app_assoc.
      * reflexivity.
      * apply custody_after_both_writes.
    + intros H0 r e w'. rewrite HGet.
      apply next_fault_false in H0. rewrite H0.
      destruct (CryptProtectData P _) as [blob|].
      2:{ intros [= <- <- <-]. destruct (Hplain key w1 eq_refl) as [Hne Hd].
          split; [done|]. intros Hdiff. destruct (Hd Hdiff) as (Hpd & Hor & Hnb).
          split; [done|]. split; [done|]. split; [done | by intros [[=] _]]. }
      destruct (next_fault w1) eqn:Hf1; [|discriminate].
      intros [= <- <- <-]. unfold interrupted. rewrite F1.
      destruct (nth_fault 1 w) as [| |written] eqn:Hk.
      * apply next_fault_false in F1. congruence.
      * destruct (Hplain key (after_io (EvWriteFile c blob) w1) eq_refl) as [Hne Hd].
        split; [done|]. intros Hdiff. destruct (Hd Hdiff) as (Hpd & Hor & Hnb).
        split; [done|]. split; [done|]. split; [done | by intros [_ [? [=]]]].
      * match goal with
        | |- context [custody (disk ?x) c p] =>
            destruct (Hboth key (String.substring 0 written blob) x eq_refl)
              as [Hb Hpd]
        end.
        rewrite Hb. split; [discriminate|]. intros Hdiff.
        split; [by apply Hpd|]. split; [by right|]. split; [eauto | done].
Qed.

Lemma C6_generation_order_witness :
  (exists words w',
     WordKey.New fakeP testWordsList "key.dat" "key.txt" empty_world
     = Returns (WordKey.formatWords words, None) w')
  /\ (exists e w',
        WordKey.New fakeP testWordsList "key.dat" "key.txt" faulty_world
        = Returns ("", Some e) w'
        /\ custody (disk w') "key.dat" "key.txt" = PlaintextOnly)
  /\ (exists e w',
        WordKey.New fakeP testWordsList "key.dat" "key.txt" torn_world
        = Returns ("", Some e) w'
        /\ custody (disk w') "key.dat" "key.txt" = Both).
Proof.
  split; [|split].
  - destruct (C6_generation_order fakeP testWordsList "key.dat" "key.txt" empty_world
                ltac:(discriminate) ltac:(vm_compute; reflexivity))
      as [(_ & words & _ & H & _) _].
    destruct (H _ eq_refl eq_refl eq_refl eq_refl) as [w' Hw'].
    exists words, w'. exact Hw'.
  - destruct (C6_generation_order fakeP testWordsList "key.dat" "key.txt" faulty_world
                ltac:(discriminate) ltac:(vm_compute; reflexivity))
      as [(_ & words & _ & _ & _ & H) _].
    specialize (H eq_refl).
    eexists _, _. split; [vm_compute; reflexivity|].
    edestruct H as [_ Hd]; [vm_compute; reflexivity|].
    destruct (Hd ltac:(vm_compute; discriminate)) as (_ & [Hp|Hb] & Hiff); [exact Hp|].
    apply Hiff in Hb as [_ [written Hw]]. vm_compute in Hw. discriminate.
  - destruct (C6_generation_order fakeP testWordsList "key.dat" "key.txt" torn_world
                ltac:(discriminate) ltac:(vm_compute; reflexivity))
      as [(_ & words & _ & _ & _ & H) _].
    specialize (H eq_refl).
    eexists _, _. split; [vm_compute; reflexivity|].
    edestruct H as [_ Hd]; [vm_compute; reflexivity|].
    destruct (Hd ltac:(vm_compute; discriminate)) as (_ & _ & Hiff).
    apply Hiff. split; [reflexivity|]. exists 0%nat. reflexivity.
Defined.

(** ** Who gets to see the key *)

Lemma string_app_eq_nil (a b : string) : a +:+ b = "" -> a = "" /\ b = "".
Proof. destruct a; simpl; [done | discriminate]. Qed.

Lemma formatWords_nonempty words : words <> [] -> WordKey.formatWords words <> "".
Proof.
  destruct words as [|word rest]; [done|]. intros _. unfold WordKey.formatWords.
  cbn [WordKey.formatWords_from]. intros [_ [H _]%string_app_eq_nil]%string_app_eq_nil.
  by destruct ((0 + 1) mod 6 =? 0)%nat.
Qed.

(** C1 as stated fails for [Get]: with only the cipher file present it
    returns the secret to its caller. *)
Lemma C1_Get_cipher_only_counterexample :
  custody (disk cipher_world) "key.dat" "key.txt" <> Empty
  /\ exists w',
       ByteKey.Get fakeP "key.dat" "key.txt" cipher_world
       = Returns (Some "correct horse battery staple", None) w'.
Proof.
  split; [vm_compute; discriminate|].
  eexists. vm_compute; reflexivity.
Qed.

Lemma New_returns_plaintext_iff P wordsList c p w rep e w' :
  WordKey.New P wordsList c p w = Returns (rep, e) w' ->
  (rep <> "" <-> custody (disk w) c p = Empty /\ e = None)
  /\ (rep <> "" ->
      exists words,
        WordKey.generate256BitsKey P wordsList (stat_both c p w)
        = Returns words (set_draws (draws w + 24) (stat_both c p w))
        /\ length words = 24%nat
        /\ rep = WordKey.formatWords words
        /\ custody (disk w') c p = Both).
Proof.
  intros H.
  destruct (decide (wordsList = [])) as [->|Hwl].
  { injection H as <- <- <-. split; [|done]. split; [done | by intros [_ ?]]. }
  unfold custody.
  destruct (disk w !! c) as [blob|] eqn:Hc; destruct (disk w !! p) as [content|] eqn:Hp.
  - rewrite New_both in H by (done || rewrite ?Hc, ?Hp; eauto).
    injection H as <- <- <-. split; [|done]. split; [done | by intros [? _]].
  - rewrite (New_cipher_path P wordsList c p w blob) in H by done. cbv zeta in H.
    destruct (next_fault w); [|destruct blob;
      [|destruct (CryptUnprotectData P _)]];
      try discriminate; injection H as <- <- <-;
      (split; [|done]); (split; [done | by intros [? _]]).
  - rewrite (New_plaintext_path P wordsList c p w content) in H by done. cbv zeta in H.
    destruct (next_fault w); [|destruct (_ || _);
      [|destruct (CryptProtectData P _); [destruct (next_fault _)|]]];
      injection H as <- <- <-;
      (split; [|done]); (split; [done | by intros [? _]]).
  - destruct (New_empty_path P wordsList c p w Hwl Hc Hp)
      as (words & Hlen & Hall & Hgen & HNew).
    cbv zeta in HNew. rewrite HNew in H. clear HNew.
    destruct (next_fault w); [|destruct (next_fault _);
      [|destruct (CryptProtectData P _) as [enc|]; [destruct (next_fault _)|]]];
      injection H as <- <- <-;
      try ((split; [|done]); (split; [done | by intros [_ ?]])).
    assert (WordKey.formatWords words <> "") as Hrep
      by (apply formatWords_nonempty; by destruct words).
    split; [done|]. intros _. exists words.
    split; [done|]. split; [done|]. split; [done|].
    apply custody_after_both_writes.
Qed.

Lemma Get_returns_key_cases P c p w key e w' :
  ByteKey.Get P c p w = Returns (Some key, e) w' ->
  e = None
  /\ (custody (disk w) c p = Empty
      \/ custody (disk w) c p = CiphertextOnly
         /\ exists blob, disk w !! c = Some blob
                         /\ CryptUnprotectData P (blob_bytes blob) = Some key).
Proof.
  intros H. unfold custody.
  destruct (disk w !! c) as [blob|] eqn:Hc; destruct (disk w !! p) as [content|] eqn:Hp.
  - rewrite Get_both in H by (rewrite ?Hc, ?Hp; eauto). discriminate.
  - rewrite (Get_cipher_path P c p w blob) in H by done. cbv zeta in H.
    destruct (next_fault w); [|destruct blob as [|a blob];
      [|destruct (CryptUnprotectData P _) as [key'|] eqn:Hdec]];
      try discriminate. injection H as <- <- <-.
    split; [done|]. right. split; [done|]. eauto.
  - rewrite (Get_plaintext_path P c p w content) in H by done. cbv zeta in H.
    destruct (next_fault w); [|destruct (negb _);
      [|destruct (CryptProtectData P _); [destruct (next_fault _)|]]];
      discriminate.
  - destruct (Get_empty_path P c p w Hc Hp) as (key' & Hlen & HGet).
    cbv zeta in HGet. rewrite HGet in H. clear HGet.
    destruct (next_fault w); [|destruct (CryptProtectData P _) as [enc|];
      [destruct (next_fault _)|]]; try discriminate.
    injection H as <- <- <-. split; [done | by left].
Qed.

(** The errors of [New] and [Get] about a plaintext file they do not
    accept are formatted with the contents of the file, [plainTextKey],
    where the messages next to them name the file, [plainTextFile]. *)
Lemma rejected_plaintext_is_quoted P wordsList c p w content :
  wordsList <> [] ->
  disk w !! c = None -> disk w !! p = Some content -> next_fault w = false ->
  let w1 := after_io (EvReadFile p) (stat_both c p w) in
  (length (Fields content) <> 24%nat ->
   WordKey.New P wordsList c p w = Returns ("", Some (ErrNot24ValidWords content)) w1)
  /\ (length (Fields content) = 24%nat ->
      WordKey.validateWords wordsList (Fields content) = true ->
      CryptProtectData P (blob_bytes (Join (Fields content) " ")) = None ->
      WordKey.New P wordsList c p w = Returns ("", Some (ErrFailedToEncrypt content)) w1)
  /\ (String.length content <> 32%nat ->
      ByteKey.Get P c p w = Returns (None, Some (ErrNot32Characters content)) w1)
  /\ (String.length content = 32%nat ->
      CryptProtectData P (blob_bytes content) = None ->
      ByteKey.Get P c p w = Returns (None, Some (ErrFailedToEncrypt content)) w1).
Proof.
  intros Hwl Hc Hp Hf w1.
  pose proof (New_plaintext_path P wordsList c p w content Hwl Hc Hp) as HNew.
  pose proof (Get_plaintext_path P c p w content Hc Hp) as HGet.
  cbv zeta in HNew, HGet. fold w1 in HNew, HGet. rewrite Hf in HNew, HGet.
  split; [|split; [|split]].
  - intros Hlen. rewrite HNew. apply Nat.eqb_neq in Hlen. by rewrite Hlen.
  - intros Hlen Hvalid Henc. rewrite HNew.
    apply Nat.eqb_eq in Hlen. by rewrite Hlen, Hvalid, Henc.
  - intros Hlen. rewrite HGet. apply Nat.eqb_neq in Hlen. by rewrite Hlen.
  - intros Hlen Henc. rewrite HGet.
    apply Nat.eqb_eq in Hlen. by rewrite Hlen, Henc.
Qed.

(** C1, amended.  [New] returns a plaintext as its string result (a
    non-empty string) exactly when it starts from an empty disk state
    and succeeds, and there it does succeed when the word list is set,
    no file operation fails and DPAPI encrypts; the string is then the
    formatted form of the words just generated, returned as the success
    value, and both files are left behind, so that the next call
    refuses; on all other paths, cipher file only and plaintext file
    only included, the string [New] returns is empty.  This is about
    the string result, not about the text of the errors.  [Get] returns
    a key from an empty disk state, when neither write fails and DPAPI
    encrypts, and also, by decrypting the cipher file, when only that
    file is present; it returns a key in no other state.  [AccessKey]
    in its [[]byte] form returns the decrypted key when only [key.dat]
    is present and the contents of [key.txt], next to its warning, when
    only that file is present; the lines that generate a key are left
    out, they are not well typed. *)
Theorem C1_plaintext_returned :
  forall P wordsList c p w,
    (forall rep e w',
       WordKey.New P wordsList c p w = Returns (rep, e) w' ->
       (rep <> "" <-> custody (disk w) c p = Empty /\ e = None)
       /\ (rep <> "" ->
           exists words,
             WordKey.generate256BitsKey P wordsList (stat_both c p w)
             = Returns words (set_draws (draws w + 24) (stat_both c p w))
             /\ length words = 24%nat
             /\ rep = WordKey.formatWords words
             /\ custody (disk w') c p = Both
             /\ WordKey.New P wordsList c p w'
                = Returns ("", Some (ErrBothKeyFiles p)) (stat_both c p w')))
    /\ (wordsList <> [] -> custody (disk w) c p = Empty ->
        exists words,
          length words = 24%nat
          /\ WordKey.generate256BitsKey P wordsList (stat_both c p w)
             = Returns words (set_draws (draws w + 24) (stat_both c p w))
          /\ forall blob,
               nth_fault 0 w = NoFault -> nth_fault 1 w = NoFault ->
               nth_fault 2 w = NoFault ->
               CryptProtectData P (blob_bytes (Join words " ")) = Some blob ->
               exists w',
                 WordKey.New P wordsList c p w
                 = Returns (WordKey.formatWords words, None) w'
                 /\ WordKey.formatWords words <> ""
                 /\ disk w' = <[c := blob]> (<[p := Join words " "]> (disk w)))
    /\ (forall key e w',
          ByteKey.Get P c p w = Returns (Some key, e) w' ->
          e = None
          /\ (custody (disk w) c p = Empty
              \/ custody (disk w) c p = CiphertextOnly
                 /\ exists blob, disk w !! c = Some blob
                                 /\ CryptUnprotectData P (blob_bytes blob) = Some key))
    /\ (custody (disk w) c p = Empty ->
        exists key,
          String.length key = 32%nat
          /\ ByteKey.generate256BitsKey P 32 (stat_both c p w)
             = Returns key (set_draws (draws w + 32) (stat_both c p w))
          /\ forall blob,
               nth_fault 0 w = NoFault -> nth_fault 1 w = NoFault ->
               CryptProtectData P (blob_bytes key) = Some blob ->
               exists w',
                 ByteKey.Get P c p w = Returns (Some key, None) w'
                 /\ disk w' = <[c := blob]> (<[p := key]> (disk w)))
    /\ (forall blob key,
          disk w !! c = Some blob -> disk w !! p = None ->
          next_fault w = false -> blob <> "" ->
          CryptUnprotectData P (blob_bytes blob) = Some key ->
          ByteKey.Get P c p w
          = Returns (Some key, None) (after_io (EvReadFile c) (stat_both c p w))
          /\ (c = "key.dat" -> p = "key.txt" ->
              AccessBytes.AccessKey P w
              = Returns (Some key, None) (after_io (EvReadFile c) (stat_both c p w))))
    /\ (forall content enc,
          disk w !! "key.dat" = None -> disk w !! "key.txt" = Some content ->
          next_fault w = false ->
          next_fault (after_io (EvReadFile "key.txt") w) = false ->
          content <> "" ->
          CryptProtectData P (blob_bytes content) = Some enc ->
          exists w',
            AccessBytes.AccessKey P w
            = Returns (Some content, Some ErrPlaintextEncrypted) w').
Proof.
  intros P wordsList c p w.
  split.
  { intros rep e w' H.
    destruct (New_returns_plaintext_iff P wordsList c p w rep e w' H) as [Hiff Hrep].
    split; [exact Hiff|]. intros Hne.
    destruct (Hrep Hne) as (words & Hgen & Hlen & Heq & Hboth).
    exists words. split; [done|]. split; [done|]. split; [done|]. split; [done|].
    apply custody_Both in Hboth as [Hc' Hp'].
    apply New_both; [|done|done].
    intros ->. injection H as H _ _. by apply Hne. }
  split.
  { intros Hwl Hempty.
    destruct (New_generates P wordsList c p w Hwl Hempty) as (words & Hlen & Hgen & Hrun).
    exists words. split; [done|]. split; [done|].
    intros blob H0 H1 H2 Henc. destruct (Hrun blob H0 H1 H2 Henc) as (w' & HNew & Hdisk).
    exists w'. split; [done|]. split; [|done].
    apply formatWords_nonempty. by destruct words. }
  split; [intros key e w'; apply Get_returns_key_cases|].
  split; [apply Get_generates|].
  split.
  - intros blob key Hc Hp Hf Hne Hdec. split.
    + rewrite (Get_cipher_path P c p w blob) by done. cbv zeta.
      rewrite Hf, Hdec. by destruct blob.
    + intros -> ->.
      rewrite (AccessBytes_cipher_path P w blob) by done. cbv zeta.
      rewrite Hf, Hdec. by destruct blob.
  - intros content enc Hc Hp Hf Hf1 Hne Henc.
    rewrite (AccessBytes_plaintext_path P w content) by done. cbv zeta.
    rewrite Hf, Henc.
    change (next_fault (after_io (EvReadFile "key.txt") (stat_both "key.dat" "key.txt" w)))
      with (next_fault (after_io (EvReadFile "key.txt") w)).
    rewrite Hf1. by eexists.
Qed.

Lemma C1_plaintext_returned_witness :
  (exists words w',
     WordKey.New fakeP testWordsList "key.dat" "key.txt" empty_world
     = Returns (WordKey.formatWords words, None) w'
     /\ WordKey.formatWords words <> ""
     /\ custody (disk w') "key.dat" "key.txt" = Both)
  /\ (exists key w',
        ByteKey.Get fakeP "key.dat" "key.txt" empty_world = Returns (Some key, None) w'
        /\ String.length key = 32%nat)
  /\ ByteKey.Get fakeP "key.dat" "key.txt" cipher_world
     = Returns (Some "correct horse battery staple", None)
         (after_io (EvReadFile "key.dat") (stat_both "key.dat" "key.txt" cipher_world))
  /\ AccessBytes.AccessKey fakeP cipher_world
     = Returns (Some "correct horse battery staple", None)
         (after_io (EvReadFile "key.dat") (stat_both "key.dat" "key.txt" cipher_world))
  /\ (exists w',
        AccessBytes.AccessKey fakeP plain_world
        = Returns (Some (Join testWordsList " "), Some ErrPlaintextEncrypted) w').
Proof.
  destruct (C1_plaintext_returned fakeP testWordsList "key.dat" "key.txt" empty_world)
    as (HNew & HNewE & _ & HGetE & _).
  destruct (C1_plaintext_returned fakeP testWordsList "key.dat" "key.txt" cipher_world)
    as (_ & _ & _ & _ & HC & _).
  destruct (C1_plaintext_returned fakeP testWordsList "key.dat" "key.txt" plain_world)
    as (_ & _ & _ & _ & _ & HP).
  split; [|split; [|split; [|split]]].
  - destruct (HNewE ltac:(discriminate) ltac:(vm_compute; reflexivity))
      as (words & _ & _ & Hrun).
    destruct (Hrun _ eq_refl eq_refl eq_refl eq_refl) as (w' & Hw' & Hne & _).
    exists words, w'. split; [exact Hw'|]. split; [exact Hne|].
    destruct (HNew _ _ _ Hw') as [_ Hrep].
    destruct (Hrep Hne) as (_ & _ & _ & _ & Hboth & _). exact Hboth.
  - destruct (HGetE ltac:(vm_compute; reflexivity)) as (key & Hlen & _ & Hrun).
    destruct (Hrun _ eq_refl eq_refl eq_refl) as (w' & Hw' & _).
    exists key, w'. split; [exact Hw' | exact Hlen].
  - refine (proj1 (HC "DPAPI:correct horse battery staple" _ _ _ _ _ _));
      [vm_compute; reflexivity | vm_compute; reflexivity | reflexivity
      | discriminate | vm_compute; reflexivity].
  - refine (proj2 (HC "DPAPI:correct horse battery staple" _ _ _ _ _ _) eq_refl eq_refl);
      [vm_compute; reflexivity | vm_compute; reflexivity | reflexivity
      | discriminate | vm_compute; reflexivity].
  - refine (HP (Join testWordsList " ") _ _ _ _ _ _ _);
      [vm_compute; reflexivity | vm_compute; reflexivity | reflexivity | reflexivity
      | vm_compute; discriminate | reflexivity].
Defined.

(** * Further properties of the code *)

(** ** The generators *)

(** The word that draw number [k] of the generator selects. *)
Lemma draw_words_nth P wordsList n w :
  wordsList <> [] ->
  exists words,
    WordKey.draw_words P wordsList n w = Returns words (set_draws (draws w + n) w)
    /\ length words = n
    /\ forall i word,
         words !! i = Some word ->
         wordsList !! Z.to_nat (Z.of_N (math_rand P (draws w + i))
                                mod Z.of_nat (length wordsList)) = Some word.
Proof.
  intros Hwl. revert w. induction n as [|n IH]; intros w.
  - exists []. simpl. unfold ret. rewrite Nat.add_0_r, set_draws_id.
    split; [done|]. split; [done|]. intros i word H. by rewrite lookup_nil in H.
  - cbn [WordKey.draw_words]. unfold bind at 1. unfold Intn.
    assert (0 < Z.of_nat (length wordsList))%Z as Hlen
      by (destruct wordsList; [done | simpl; lia]).
    destruct (Z.leb_spec (Z.of_nat (length wordsList)) 0); [lia|].
    unfold bind at 1. unfold index.
    pose proof (Z.mod_pos_bound (Z.of_N (math_rand P (draws w))) _ Hlen) as Hi.
    rewrite Z_N_nat.
    destruct (wordsList !! Z.to_nat _) as [word|] eqn:E.
    2:{ apply lookup_ge_None in E. lia. }
    unfold ret at 1. unfold bind at 1.
    destruct (IH (set_draws (S (draws w)) w)) as (rest & Hrest & Hlenr & Hnth).
    rewrite Hrest. unfold ret. exists (word :: rest).
    split; [|split].
    + simpl draws. rewrite set_draws_set_draws. do 2 f_equal. lia.
    + simpl. congruence.
    + intros [|i] word' Hw; simpl in Hw.
      * injection Hw as <-. by rewrite Nat.add_0_r.
      * specialize (Hnth i word' Hw). simpl draws in Hnth.
        by replace (draws w + S i)%nat with (S (draws w) + i)%nat by lia.
Qed.

(** X1.  [generate256BitsKey] of the word-list generation never panics.
    On an empty [wordsList] it returns nil and draws nothing; otherwise
    it takes exactly 24 draws and returns 24 words, the i-th of them
    the entry of [wordsList] at the i-th drawn value modulo the length
    of the list: words are drawn with replacement and may repeat. *)
Theorem X1_generate_words :
  forall P wordsList w,
    (wordsList = [] -> WordKey.generate256BitsKey P wordsList w = Returns [] w)
    /\ (wordsList <> [] ->
        exists words,
          WordKey.generate256BitsKey P wordsList w
          = Returns words (set_draws (draws w + 24) w)
          /\ length words = 24%nat
          /\ forall i word,
               words !! i = Some word ->
               wordsList !! Z.to_nat (Z.of_N (math_rand P (draws w + i))
                                      mod Z.of_nat (length wordsList)) = Some word).
Proof.
  intros P wordsList w. split; [by intros ->|].
  intros Hwl. unfold WordKey.generate256BitsKey.
  destruct wordsList as [|x xs]; [done|]. cbn [length Nat.eqb].
  by apply draw_words_nth.
Qed.

Lemma X1_generate_words_witness :
  WordKey.generate256BitsKey sealP [] empty_world = Returns [] empty_world
  /\ exists words,
       WordKey.generate256BitsKey sealP ["solo"; "duet"] empty_world
       = Returns words (set_draws 24 empty_world)
       /\ length words = 24%nat.
Proof.
  destruct (X1_generate_words sealP [] empty_world) as [H0 _].
  destruct (X1_generate_words sealP ["solo"; "duet"] empty_world) as [_ H1].
  split; [by apply H0|].
  destruct H1 as (words & Hw & Hlen & _); [discriminate|].
  exists words. exact (conj Hw Hlen).
Defined.

(** X2.  [generate256BitsKey(size)] of [Get] never panics: it takes
    [size] draws and returns [size] characters, all of its alphabet;
    for [size <= 0] it returns the empty string and draws nothing. *)
Theorem X2_generate_characters :
  forall P size w,
    exists key,
      ByteKey.generate256BitsKey P size w
      = Returns key (set_draws (draws w + Z.to_nat size) w)
      /\ Z.of_nat (String.length key) = Z.max 0 size
      /\ Forall (fun ch => ch ∈ list_ascii_of_string ByteKey.characters)
                (list_ascii_of_string key).
Proof.
  intros P size w. unfold ByteKey.generate256BitsKey.
  destruct (ByteKey_draw_chars_spec P (Z.to_nat size) w) as (key & Hgen & Hlen & Hall).
  exists key. split; [done|]. split; [lia | done].
Qed.

(** X4.  [secureRandomInt] never returns more than 255, whatever
    [max]: it reduces a single byte.  For [max > 256] the values from
    256 on are never produced, while every value below [max] and below
    256 is produced by the byte of that value. *)
Theorem X4_secureRandomInt_one_byte :
  forall P max w,
    (forall n e w', secureRandomInt P max w = Returns (n, e) w' -> (0 <= n <= 255)%Z)
    /\ (forall n, (0 <= n < max)%Z -> (n <= 255)%Z ->
          crypto_rand P (draws w) = Some (ascii_of_N (Z.to_N n)) ->
          secureRandomInt P max w = Returns (n, None) (set_draws (S (draws w)) w)).
Proof.
  intros P max w. split.
  - intros n e w' H. unfold secureRandomInt in H.
    destruct (Z.leb_spec max 0) as [Hle|Hgt].
    + injection H as <- _ _. lia.
    + unfold bind, rand_Read, ret in H.
      destruct (crypto_rand P (draws w)) as [b|].
      * injection H as <- _ _.
        assert (byte_val b < 256)%N as Hb by apply N_ascii_bounded.
        pose proof (Z.rem_bound_pos (Z.of_N (byte_val b)) max ltac:(lia) ltac:(lia)).
        pose proof (Z.rem_le (Z.of_N (byte_val b)) max ltac:(lia) ltac:(lia)).
        lia.
      * injection H as <- _ _. lia.
  - intros n Hn H255 Hsrc.
    rewrite (secureRandomInt_positive P max w _ ltac:(lia) Hsrc).
    unfold byte_val. rewrite N_ascii_embedding by lia.
    rewrite Z2N.id by lia. rewrite Z.mod_small by lia. reflexivity.
Qed.

Lemma X4_secureRandomInt_one_byte_witness :
  secureRandomInt sealP 1000 empty_world = Returns (77%Z, None) (set_draws 1 empty_world).
Proof.
  destruct (X4_secureRandomInt_one_byte sealP 1000 empty_world) as [_ H].
  apply (H 77%Z); [lia | lia | reflexivity].
Defined.

(** ** What the entry points leave alone *)

(** A failing random source ends [generate256BitsKey] of [AccessKey]
    with the disk and the loaded key as they were. *)
Lemma AccessMsg_draw_chars_frame P len n w :
  disk (final (AccessMsg.draw_chars P len n w)) = disk w
  /\ secureKey (final (AccessMsg.draw_chars P len n w)) = secureKey w.
Proof.
  revert w. induction n as [|n IH]; intros w; [split; reflexivity|].
  cbn [AccessMsg.draw_chars].
  unfold bind, secureRandomInt, bind, rand_Read, index, ret, raise, modify.
  destruct (len <=? 0)%Z.
  - destruct (list_ascii_of_string charPool !! _); [|split; reflexivity].
    specialize (IH w). destruct (AccessMsg.draw_chars P len n w); exact IH.
  - destruct (crypto_rand P (draws w)); [|split; reflexivity].
    destruct (list_ascii_of_string charPool !! _); [|split; reflexivity].
    specialize (IH (set_draws (S (draws w)) w)).
    destruct (AccessMsg.draw_chars P len n _); exact IH.
Qed.

Lemma AccessMsg_empty_path P w :
  disk w !! "key.dat" = None -> disk w !! "key.txt" = None ->
  let ws := stat_both "key.dat" "key.txt" w in
  (exists w',
     AccessMsg.AccessKey P w = Panics FatalExit w'
     /\ disk w' = disk w /\ secureKey w' = secureKey w
     /\ exists i, (i < 32)%nat /\ crypto_rand P (draws w + i) = None)
  \/ (exists words,
        String.length words = 32%nat
        /\ Forall (fun c => c ∈ list_ascii_of_string charPool) (list_ascii_of_string words)
        /\ let w0 := set_draws (draws w + 32) ws in
           let w1 := set_disk (<["key.txt" := words]> (disk w))
                              (after_io (EvWriteFile "key.txt" words) w0) in
           let w2 := after_io (EvReadFile "key.txt") w1 in
           AccessMsg.AccessKey P w
           = if next_fault w
             then Returns (false, AccessMsg.Msg (ErrFailedToWrite "key.txt"))
                          (interrupted "key.txt" words w0)
             else if next_fault w1
             then Returns (false, AccessMsg.Msg (ErrFailedToRead "key.txt")) w2
             else match CryptProtectData P (blob_bytes words) with
                  | None => Returns (false, AccessMsg.Msg ErrFailedToEncryptGenerated) w2
                  | Some blob =>
                      if next_fault w2
                      then Returns (false, AccessMsg.Msg (ErrFailedToSave "key.dat"))
                                   (interrupted "key.dat" blob w2)
                      else Returns (false, AccessMsg.MsgEmpty)
                             (log_event (EvLog AccessMsg.rule)
                                (log_event (EvLog words)
                                   (log_event (EvLog AccessMsg.rule)
                                      (log_event (EvLog AccessMsg.banner)
                                         (set_disk (<["key.dat" := blob]>
                                                      (<["key.txt" := words]> (disk w)))
                                            (after_io (EvWriteFile "key.dat" blob) w2))))))
                  end).
Proof.
  intros Hc Hp ws.
  pose proof (AccessMsg_draw_chars_spec P 32 ws) as Hspec.
  pose proof (AccessMsg_draw_chars_frame P (Z.of_nat (String.length charPool)) 32 ws)
    as [Hfd Hfk].
  assert (AccessMsg.AccessKey P w
          = bind (AccessMsg.draw_chars P (Z.of_nat (String.length charPool)) 32)
              (fun words =>
                 let* written := WriteFile "key.txt" words in
                 if negb written then ret (false, AccessMsg.Msg (ErrFailedToWrite "key.txt")) else
                 let* read := ReadFile "key.txt" in
                 match read with
                 | None => ret (false, AccessMsg.Msg (ErrFailedToRead "key.txt"))
                 | Some plainTextKey =>
                     let* encrypted := AccessMsg.encryptData P plainTextKey in
                     match encrypted with
                     | None => ret (false, AccessMsg.Msg ErrFailedToEncryptGenerated)
                     | Some encryptedKey =>
                         let* saved := WriteFile "key.dat" encryptedKey in
                         if negb saved then ret (false, AccessMsg.Msg (ErrFailedToSave "key.dat"))
                         else
                           run modify (log_event (EvLog AccessMsg.banner)) in
                           run modify (log_event (EvLog AccessMsg.rule)) in
                           run modify (log_event (EvLog words)) in
                           run modify (log_event (EvLog AccessMsg.rule)) in
                           ret (false, AccessMsg.MsgEmpty)
                     end
                 end) ws) as HAcc.
  { unfold AccessMsg.AccessKey. stat_files. reflexivity. }
  unfold bind at 1 in HAcc.
  destruct (AccessMsg.draw_chars P _ 32 ws) as [words w0'|pn w'].
  - right. destruct Hspec as (Hlen & Hall & -> & _). exists words.
    split; [done|]. split; [done|]. cbv zeta. rewrite HAcc. clear HAcc.
    change (draws ws) with (draws w).
    set (w0 := set_draws (draws w + 32) ws).
    set (w1 := set_disk (<["key.txt" := words]> (disk w))
                        (after_io (EvWriteFile "key.txt" words) w0)).
    set (w2 := after_io (EvReadFile "key.txt") w1).
    unfold bind at 1. unfold WriteFile.
    change (next_fault w0) with (next_fault w). destruct (next_fault w); [reflexivity|].
    cbn [negb]. change (disk w0) with (disk w). fold w1.
    unfold bind at 1. unfold ReadFile. destruct (next_fault w1); [reflexivity|].
    fold w2. replace (disk w1 !! "key.txt") with (Some words)
      by (symmetry; apply disk_lookup_insert_eq).
    unfold bind at 1. unfold AccessMsg.encryptData. unfold bind at 1.
    rewrite DataBlob_nonempty by (by destruct words). unfold ret at 1.
    destruct (CryptProtectData P _) as [blob|]; [|reflexivity].
    unfold bind at 1. unfold WriteFile. destruct (next_fault w2); reflexivity.
  - left. destruct Hspec as (-> & Hex). exists w'. simpl in Hfd, Hfk.
    split; [done|]. split; [done|]. split; [done|]. exact Hex.
Qed.

(** The plaintext path of [AccessKey] with an empty file. *)
Lemma AccessMsg_empty_plaintext P w :
  disk w !! "key.dat" = None -> disk w !! "key.txt" = Some "" ->
  let w1 := after_io (EvReadFile "key.txt") (stat_both "key.dat" "key.txt" w) in
  AccessMsg.AccessKey P w
  = if next_fault w then Returns (false, AccessMsg.Msg (ErrFailedToRead "key.txt")) w1
    else Panics IndexOutOfRange w1.
Proof.
  intros Hc Hp w1. unfold AccessMsg.AccessKey. stat_files.
  unfold bind at 1. unfold ReadFile.
  change (next_fault (log_event _ (log_event _ w))) with (next_fault w).
  change (disk (log_event _ _) !! "key.txt") with (disk w !! "key.txt").
  rewrite Hp. fold (stat_both "key.dat" "key.txt" w). fold w1.
  destruct (next_fault w); reflexivity.
Qed.

Lemma AccessBytes_empty_plaintext P w :
  disk w !! "key.dat" = None -> disk w !! "key.txt" = Some "" ->
  let w1 := after_io (EvReadFile "key.txt") (stat_both "key.dat" "key.txt" w) in
  AccessBytes.AccessKey P w
  = if next_fault w then Returns (None, Some (ErrFailedToRead "key.txt")) w1
    else Panics IndexOutOfRange w1.
Proof.
  intros Hc Hp w1. unfold AccessBytes.AccessKey. stat_files.
  unfold bind at 1. unfold ReadFile.
  change (next_fault (log_event _ (log_event _ w))) with (next_fault w).
  change (disk (log_event _ _) !! "key.txt") with (disk w !! "key.txt").
  rewrite Hp. fold (stat_both "key.dat" "key.txt" w). fold w1.
  destruct (next_fault w); reflexivity.
Qed.

(** A file is untouched by a write, whole or interrupted, to a path
    that was free. *)
Lemma kept_after_write (d : Disk) name data other content :
  d !! name = None -> d !! other = Some content ->
  <[name := data]> d !! other = Some content.
Proof. intros Hn Ho. rewrite disk_lookup_insert_other; [done | congruence]. Qed.

Lemma kept_after_writes (d : Disk) name1 data1 name2 data2 other content :
  d !! name1 = None -> d !! name2 = None -> d !! other = Some content ->
  <[name2 := data2]> (<[name1 := data1]> d) !! other = Some content.
Proof.
  intros H1 H2 Ho. rewrite disk_lookup_insert_ne.
  - by apply kept_after_write.
  - change (~ same_file d name2 other). apply lookup_differs. congruence.
Qed.

Lemma interrupted_secureKey name data w :
  secureKey (interrupted name data w) = secureKey w.
Proof. unfold interrupted. by destruct (nth_fault 0 w). Qed.

Ltac keeps_key := unfold final; rewrite ?interrupted_secureKey; reflexivity.

(** A leaf of a symbolic run: its disk is the old one with files added
    at paths that were free. *)
Ltac keeps_leaf :=
  let name := fresh "name" in
  let data := fresh "data" in
  let Hname := fresh "Hname" in
  intros name data Hname; unfold final, interrupted;
  try match goal with
      | |- context [nth_fault 0 ?x] => destruct (nth_fault 0 x)
      end;
  cbn [disk set_disk];
  first [ exact Hname
        | apply kept_after_write; [assumption | exact Hname]
        | apply kept_after_writes; [assumption | assumption | exact Hname] ].

Lemma New_frame P wordsList c p w :
  keeps_files w (final (WordKey.New P wordsList c p w))
  /\ (secureKey (final (WordKey.New P wordsList c p w)) = secureKey w
      \/ loaded_from P c p w (final (WordKey.New P wordsList c p w))
         /\ exists w', WordKey.New P wordsList c p w = Returns ("", None) w').
Proof.
  destruct (decide (wordsList = [])) as [->|Hwl].
  { split; [by intros ? ? ?|by left]. }
  destruct (disk w !! c) as [blob|] eqn:Hc; destruct (disk w !! p) as [content|] eqn:Hp.
  - rewrite New_both by (done || rewrite ?Hc, ?Hp; eauto).
    split; [by intros ? ? ?|by left].
  - rewrite (New_cipher_path P wordsList c p w blob) by done. cbv zeta.
    destruct (next_fault w); [|destruct blob as [|a blob];
      [|destruct (CryptUnprotectData P _) as [key|] eqn:Hdec]];
      (split; [by intros ? ? ?|]); try (by left).
    right. split; [|by eexists]. exists (String a blob), key. done.
  - rewrite (New_plaintext_path P wordsList c p w content) by done. cbv zeta.
    destruct (next_fault w); [|destruct (_ || _);
      [|destruct (CryptProtectData P _); [destruct (next_fault _)|]]];
      (split; [keeps_leaf | left; keeps_key]).
  - destruct (New_empty_path P wordsList c p w Hwl Hc Hp)
      as (words & Hlen & Hall & Hgen & HNew).
    cbv zeta in HNew. rewrite HNew. clear HNew.
    destruct (next_fault w); [|destruct (next_fault _);
      [|destruct (CryptProtectData P _) as [enc|]; [destruct (next_fault _)|]]];
      (split; [keeps_leaf | left; keeps_key]).
Qed.

Lemma Get_frame P c p w :
  keeps_files w (final (ByteKey.Get P c p w))
  /\ secureKey (final (ByteKey.Get P c p w)) = secureKey w.
Proof.
  destruct (disk w !! c) as [blob|] eqn:Hc; destruct (disk w !! p) as [content|] eqn:Hp.
  - rewrite Get_both by (rewrite ?Hc, ?Hp; eauto). split; [by intros ? ? ?|done].
  - rewrite (Get_cipher_path P c p w blob) by done. cbv zeta.
    destruct (next_fault w); [|destruct blob as [|a blob];
      [|destruct (CryptUnprotectData P _) as [key|] eqn:Hdec]];
      (split; [by intros ? ? ?|done]).
  - rewrite (Get_plaintext_path P c p w content) by done. cbv zeta.
    destruct (next_fault w); [|destruct (negb _);
      [|destruct (CryptProtectData P _); [destruct (next_fault _)|]]];
      (split; [keeps_leaf | keeps_key]).
  - destruct (Get_empty_path P c p w Hc Hp) as (key & Hlen & HGet).
    cbv zeta in HGet. rewrite HGet. clear HGet.
    destruct (next_fault w); [|destruct (CryptProtectData P _) as [enc|];
      [destruct (next_fault _)|]];
      (split; [keeps_leaf | keeps_key]).
Qed.

Lemma AccessMsg_frame P w :
  keeps_files w (final (AccessMsg.AccessKey P w))
  /\ (secureKey (final (AccessMsg.AccessKey P w)) = secureKey w
      \/ loaded_from P "key.dat" "key.txt" w (final (AccessMsg.AccessKey P w))
         /\ exists w', AccessMsg.AccessKey P w = Returns (true, AccessMsg.MsgKeyLoaded) w').
Proof.
  destruct (disk w !! "key.dat") as [blob|] eqn:Hc;
    destruct (disk w !! "key.txt") as [content|] eqn:Hp.
  - rewrite AccessMsg_both by (rewrite ?Hc, ?Hp; eauto).
    split; [by intros ? ? ?|by left].
  - rewrite (AccessMsg_cipher_path P w blob) by done. cbv zeta.
    destruct (next_fault w); [|destruct blob as [|a blob];
      [|destruct (CryptUnprotectData P _) as [key|] eqn:Hdec]];
      (split; [by intros ? ? ?|]); try (by left).
    right. split; [|by eexists]. exists (String a blob), key. done.
  - destruct content as [|a content].
    + rewrite AccessMsg_empty_plaintext by done. cbv zeta.
      destruct (next_fault w); (split; [by intros ? ? ?|by left]).
    + rewrite (AccessMsg_plaintext_path P w (String a content)) by done. cbv zeta.
      destruct (next_fault w);
        [|destruct (CryptProtectData P _); [destruct (next_fault _)|]];
        (split; [keeps_leaf | left; keeps_key]).
  - destruct (AccessMsg_empty_path P w Hc Hp)
      as [(w' & -> & Hd & Hk & _)|(words & Hlen & Hall & HAcc)].
    + simpl. split; [|by left]. intros name content Hname. by rewrite Hd.
    + cbv zeta in HAcc. rewrite HAcc. clear HAcc.
      destruct (next_fault w); [|destruct (next_fault _);
        [|destruct (CryptProtectData P _) as [enc|]; [destruct (next_fault _)|]]];
        (split; [keeps_leaf | left; keeps_key]).
Qed.

(** X5.  No entry point changes or removes a file that exists when it
    is called: whatever the custody state, the faults and the answers
    of DPAPI, and however the call ends (panics included), every file
    on the disk is still there with its contents.  [New], [Get] and
    [AccessKey] only ever create files. *)
Theorem X5_existing_files_kept :
  forall P wordsList c p w,
    keeps_files w (final (WordKey.New P wordsList c p w))
    /\ keeps_files w (final (ByteKey.Get P c p w))
    /\ keeps_files w (final (AccessMsg.AccessKey P w)).
Proof.
  intros P wordsList c p w.
  split; [apply New_frame|]. split; [apply Get_frame | apply AccessMsg_frame].
Qed.



Lemma Fields_empty : Fields "" = [].
Proof. reflexivity. Qed.

(** X7.  Files of length zero.  An empty cipher file makes every entry
    point panic (index out of range on [&data[0]]) before DPAPI is
    asked.  An empty plaintext file is refused by [New] ("must contain
    exactly 24 valid words") and by [Get] ("must contain a key that is
    32 characters"), but [AccessKey], which does not look at the
    contents, panics on it in the same way.  The disk is untouched in
    all these cases. *)
Theorem X7_empty_files :
  forall P wordsList c p w,
    wordsList <> [] -> next_fault w = false ->
    (disk w !! c = Some "" -> disk w !! p = None ->
     let w1 := after_io (EvReadFile c) (stat_both c p w) in
     WordKey.New P wordsList c p w = Panics IndexOutOfRange w1
     /\ ByteKey.Get P c p w = Panics IndexOutOfRange w1
     /\ (c = "key.dat" -> p = "key.txt" ->
         AccessMsg.AccessKey P w = Panics IndexOutOfRange w1
         /\ AccessBytes.AccessKey P w = Panics IndexOutOfRange w1)
     /\ disk w1 = disk w)
    /\ (disk w !! c = None -> disk w !! p = Some "" ->
        let w1 := after_io (EvReadFile p) (stat_both c p w) in
        WordKey.New P wordsList c p w = Returns ("", Some (ErrNot24ValidWords "")) w1
        /\ ByteKey.Get P c p w = Returns (None, Some (ErrNot32Characters "")) w1
        /\ (c = "key.dat" -> p = "key.txt" ->
            AccessMsg.AccessKey P w = Panics IndexOutOfRange w1
            /\ AccessBytes.AccessKey P w = Panics IndexOutOfRange w1)
        /\ disk w1 = disk w).
Proof.
  intros P wordsList c p w Hwl Hf. split.
  - intros Hc Hp w1. subst w1.
    destruct (empty_cipher_file_panics P wordsList c p w Hwl Hc Hp Hf) as [HNew HGet].
    split; [done|]. split; [done|]. split; [|done].
    intros -> ->.
    rewrite (AccessMsg_cipher_path P w "") by done.
    rewrite (AccessBytes_cipher_path P w "") by done.
    cbv zeta. by rewrite Hf.
  - intros Hc Hp w1. subst w1.
    rewrite (New_plaintext_path P wordsList c p w "") by done.
    rewrite (Get_plaintext_path P c p w "") by done.
    cbv zeta. rewrite Hf, Fields_empty. cbn [length Nat.eqb negb orb String.length].
    split; [done|]. split; [done|]. split; [|done].
    intros -> ->.
    rewrite AccessMsg_empty_plaintext by done.
    rewrite AccessBytes_empty_plaintext by done.
    cbv zeta. by rewrite Hf.
Qed.

Lemma X7_empty_files_witness :
  WordKey.New sealP testWordsList "key.dat" "key.txt" (world_of (<["key.dat" := ""]> ∅))
  = Panics IndexOutOfRange
      (after_io (EvReadFile "key.dat")
         (stat_both "key.dat" "key.txt" (world_of (<["key.dat" := ""]> ∅))))
  /\ AccessMsg.AccessKey sealP (world_of (<["key.txt" := ""]> ∅))
     = Panics IndexOutOfRange
         (after_io (EvReadFile "key.txt")
            (stat_both "key.dat" "key.txt" (world_of (<["key.txt" := ""]> ∅)))).
Proof.
  split.
  - destruct (X7_empty_files sealP testWordsList "key.dat" "key.txt"
                (world_of (<["key.dat" := ""]> ∅)) ltac:(discriminate) eq_refl) as [H _].
    destruct H as (H & _); [vm_compute; reflexivity | vm_compute; reflexivity | exact H].
  - destruct (X7_empty_files sealP testWordsList "key.dat" "key.txt"
                (world_of (<["key.txt" := ""]> ∅)) ltac:(discriminate) eq_refl) as [_ H].
    destruct H as (_ & _ & H & _); [vm_compute; reflexivity | vm_compute; reflexivity |].
    destruct (H eq_refl eq_refl) as [H1 _]. exact H1.
Defined.

(** X8.  [Get] accepts a plaintext file by its length alone: a file of
    any other length than 32 bytes (a 32-character key followed by a
    line break is one) is refused with the "must contain a key that is
    32 characters" error and nothing is changed; a file of 32 bytes,
    whatever they are, is encrypted into the cipher file and [Get]
    returns its both-key-files error with no key. *)
Theorem X8_Get_plaintext_length :
  forall P c p w content,
    disk w !! c = None -> disk w !! p = Some content -> next_fault w = false ->
    let w1 := after_io (EvReadFile p) (stat_both c p w) in
    (String.length content <> 32%nat ->
     ByteKey.Get P c p w = Returns (None, Some (ErrNot32Characters content)) w1
     /\ disk w1 = disk w)
    /\ (String.length content = 32%nat ->
        forall blob,
          CryptProtectData P (blob_bytes content) = Some blob ->
          next_fault w1 = false ->
          exists w',
            ByteKey.Get P c p w = Returns (None, Some (ErrBothKeyFiles p)) w'
            /\ disk w' = <[c := blob]> (disk w)).
Proof.
  intros P c p w content Hc Hp Hf w1.
  pose proof (Get_plaintext_path P c p w content Hc Hp) as HGet.
  cbv zeta in HGet. fold w1 in HGet. rewrite Hf in HGet. split.
  - intros Hlen. apply Nat.eqb_neq in Hlen. rewrite Hlen in HGet. done.
  - intros Hlen blob Henc Hf1. rewrite Hlen, Henc, Hf1 in HGet.
    eexists. split; [exact HGet | reflexivity].
Qed.

Lemma X8_Get_plaintext_length_witness :
  ByteKey.Get sealP "key.dat" "key.txt"
    (world_of (<["key.txt" := "0123456789abcdef0123456789abcdef" +:+ String "010" ""]> ∅))
  = Returns (None, Some (ErrNot32Characters
                           ("0123456789abcdef0123456789abcdef" +:+ String "010" "")))
      (after_io (EvReadFile "key.txt")
         (stat_both "key.dat" "key.txt"
            (world_of (<["key.txt" := "0123456789abcdef0123456789abcdef"
                                       +:+ String "010" ""]> ∅))))
  /\ exists w',
       ByteKey.Get sealP "key.dat" "key.txt"
         (world_of (<["key.txt" := "0123456789abcdef0123456789abcdef"]> ∅))
       = Returns (None, Some (ErrBothKeyFiles "key.txt")) w'.
Proof.
  split.
  - destruct (X8_Get_plaintext_length sealP "key.dat" "key.txt"
                (world_of (<["key.txt" := "0123456789abcdef0123456789abcdef"
                                           +:+ String "010" ""]> ∅))
                ("0123456789abcdef0123456789abcdef" +:+ String "010" ""))
      as [H _]; [vm_compute; reflexivity | vm_compute; reflexivity | reflexivity |].
    destruct H as [H _]; [vm_compute; discriminate | exact H].
  - destruct (X8_Get_plaintext_length sealP "key.dat" "key.txt"
                (world_of (<["key.txt" := "0123456789abcdef0123456789abcdef"]> ∅))
                "0123456789abcdef0123456789abcdef")
      as [_ H]; [vm_compute; reflexivity | vm_compute; reflexivity | reflexivity |].
    destruct (H eq_refl (String "!" "0123456789abcdef0123456789abcdef"))
      as (w' & H' & _); [vm_compute; reflexivity | reflexivity |].
    exists w'. exact H'.
Defined.

(** ** What reaches DPAPI, and what comes back *)

Lemma length_take_bytes n s :
  String.length (take_bytes n s) = Nat.min n (String.length s).
Proof.
  revert s. induction n as [|n IH]; intros [|c t]; simpl; try done.
  by rewrite IH.
Qed.

Lemma take_bytes_all s : take_bytes (String.length s) s = s.
Proof. induction s as [|c t IH]; simpl; [done | by rewrite IH]. Qed.

(** The [uint32] of [DataBlob.Size] holds the length of anything under
    4 GiB, and of nothing longer. *)
Lemma blob_bytes_id_iff data :
  blob_bytes data = data <-> (N.of_nat (String.length data) < 2 ^ 32)%N.
Proof.
  unfold blob_bytes.
  assert (0 < 2 ^ 32)%N as Hpos by reflexivity.
  set (m := (2 ^ 32)%N) in *. split.
  - intros H. apply (f_equal String.length) in H. rewrite length_take_bytes in H.
    pose proof (N.mod_upper_bound (N.of_nat (String.length data)) m ltac:(lia)) as Hlt.
    lia.
  - intros H. rewrite N.mod_small by done. rewrite Nat2N.id. apply take_bytes_all.
Qed.

Lemma faithful_sealP : faithful sealP.
Proof.
  intros data blob H. simpl in H. unfold seal_protect in H.
  assert (2 ^ 32 - 1 = N.pred (2 ^ 32))%N as Hm by reflexivity.
  assert (0 < 2 ^ 32)%N as Hpos by reflexivity.
  set (m := (2 ^ 32)%N) in *.
  destruct (N.ltb_spec (N.of_nat (String.length data)) (m - 1)) as [Hlt|]; [|done].
  injection H as <-. split; [done|]. split; [|reflexivity].
  simpl String.length. rewrite Nat2N.inj_succ. lia.
Qed.



(** ** Runs in sequence *)

Lemma remove_file_absent name w : disk (remove_file name w) !! name = None.
Proof. apply disk_lookup_delete_eq. Qed.

Lemma remove_file_other name other w :
  ~ same_file (disk w) name other ->
  disk (remove_file name w) !! other = disk w !! other.
Proof. intros H. by apply disk_lookup_delete_ne. Qed.

(** Two names of one file.  Called with [k.dat] and [./k.dat], [New]
    writes the words and then the blob to the one file; once that is
    removed under either name the directory is empty again, and the next
    [New] generates a new key instead of loading the first. *)
Example one_file_two_names :
  same_file (disk aliased_world) "k.dat" "./k.dat"
  /\ exists rep w1 rep' w2,
       WordKey.New sealP testWordsList "k.dat" "./k.dat" aliased_world
       = Returns (rep, None) w1
       /\ disk w1 !! "./k.dat" = disk w1 !! "k.dat"
       /\ custody (disk (remove_file "./k.dat" w1)) "k.dat" "./k.dat" = Empty
       /\ WordKey.New sealP testWordsList "k.dat" "./k.dat" (remove_file "./k.dat" w1)
          = Returns (rep', None) w2
       /\ rep' <> "".
Proof.
  split; [reflexivity|].
  eexists _, _, _, _. split; [vm_compute; reflexivity|].
  split; [vm_compute; reflexivity|].
  split; [vm_compute; reflexivity|].
  split; [vm_compute; reflexivity|].
  vm_compute. discriminate.
Qed.

(** X10.  The package's test, for every word list and platform.  When
    [New] has generated a key on an empty disk state, the two paths
    naming different files, and the plaintext file is then removed, a
    second [New] loads the key from the cipher file and [GetKey]
    returns it: the words of the first run joined by single spaces (the
    formatted form the first run returned has the same words, with line
    breaks).  DPAPI is assumed faithful and the read of the second run
    not to fail. *)
Theorem X10_generate_remove_load :
  forall P wordsList c p w rep w1,
    faithful P -> ~ same_file (disk w) c p -> custody (disk w) c p = Empty ->
    WordKey.New P wordsList c p w = Returns (rep, None) w1 ->
    next_fault w1 = false ->
    exists words w2 w3,
      length words = 24%nat
      /\ rep = WordKey.formatWords words
      /\ disk w1 !! p = Some (Join words " ")
      /\ WordKey.New P wordsList c p (remove_file p w1) = Returns ("", None) w2
      /\ WordKey.GetKey w2 = Returns (blob_bytes (Join words " "), None) w3
      /\ custody (disk w3) c p = CiphertextOnly.
Proof.
  intros P wordsList c p w rep w1 HP Hne [Hc Hp]%custody_Empty HNew Hf1.
  destruct (decide (wordsList = [])) as [->|Hwl]; [discriminate|].
  destruct (New_empty_path P wordsList c p w Hwl Hc Hp)
    as (words & Hlen & Hall & Hgen & Heq).
  cbv zeta in Heq. rewrite Heq in HNew. clear Heq.
  destruct (next_fault w); [discriminate|].
  destruct (next_fault _); [discriminate|].
  destruct (CryptProtectData P _) as [blob|] eqn:Henc; [|discriminate].
  destruct (next_fault _); [discriminate|].
  injection HNew as <- <-.
  destruct (HP _ _ Henc) as (Hblob & Hsize & Hdec).
  apply blob_bytes_id_iff in Hsize.
  set (w1 := set_disk _ _) in *.
  assert (disk w1 !! p = Some (Join words " ")) as Hp1.
  { subst w1. cbn [disk set_disk].
    rewrite disk_lookup_insert_ne by exact Hne. apply disk_lookup_insert_eq. }
  assert (disk (remove_file p w1) !! c = Some blob) as Hc2.
  { rewrite remove_file_other by (intros H; apply Hne, same_file_sym, H).
    subst w1. cbn [disk set_disk]. apply disk_lookup_insert_eq. }
  pose proof (New_cipher_path P wordsList c p (remove_file p w1) blob Hwl Hc2
                (remove_file_absent p w1)) as HNew2.
  cbv zeta in HNew2.
  change (next_fault (remove_file p w1)) with (next_fault w1) in HNew2.
  rewrite Hf1 in HNew2. rewrite Hsize, Hdec in HNew2.
  destruct blob as [|a blob]; [done|].
  eexists words, _, _. split; [done|]. split; [done|]. split; [done|].
  split; [exact HNew2|]. split.
  - erewrite WordKey_GetKey_loaded; [|reflexivity]. reflexivity.
  - apply custody_CiphertextOnly. split.
    + change (is_Some (disk (remove_file p w1) !! c)). rewrite Hc2. eauto.
    + change (disk (remove_file p w1) !! p = None). apply remove_file_absent.
Qed.

Lemma X10_generate_remove_load_witness :
  exists rep w1 words w2 w3,
    WordKey.New sealP testWordsList "test_key.dat" "test_key.txt" empty_world
    = Returns (rep, None) w1
    /\ WordKey.New sealP testWordsList "test_key.dat" "test_key.txt"
         (remove_file "test_key.txt" w1) = Returns ("", None) w2
    /\ WordKey.GetKey w2 = Returns (blob_bytes (Join words " "), None) w3.
Proof.
  eexists _, _.
  assert (WordKey.New sealP testWordsList "test_key.dat" "test_key.txt" empty_world
          = Returns _ _) as H by (vm_compute; reflexivity).
  destruct (X10_generate_remove_load sealP testWordsList "test_key.dat" "test_key.txt"
              empty_world _ _ faithful_sealP ltac:(vm_compute; discriminate)
              ltac:(vm_compute; reflexivity) H eq_refl)
    as (words & w2 & w3 & _ & _ & _ & H2 & H3 & _).
  exists words, w2, w3. exact (conj H (conj H2 H3)).
Defined.



(** X12.  The layout of the plaintext file does not matter to what is
    encrypted.  When the entries of the word list are tokens, a
    plaintext file that holds 24 of them in the formatted form [New]
    returns on generation (line breaks included), and any other file
    with the same fields, is encrypted as the words joined by single
    spaces: the bytes the generating run hands to DPAPI.  What DPAPI
    returns for them is written to the cipher file. *)
Theorem X12_layout_is_normalised :
  forall P wordsList c p w words content blob,
    Forall (fun word => is_token word = true) wordsList ->
    length words = 24%nat -> Forall (fun word => word ∈ wordsList) words ->
    Fields content = words ->
    disk w !! c = None -> disk w !! p = Some content ->
    next_fault w = false -> next_fault (after_io (EvReadFile p) w) = false ->
    CryptProtectData P (blob_bytes (Join words " ")) = Some blob ->
    Fields (WordKey.formatWords words) = words
    /\ exists w',
         WordKey.New P wordsList c p w = Returns ("", None) w'
         /\ disk w' = <[c := blob]> (disk w).
Proof.
  intros P wordsList c p w words content blob Hdict Hlen Hall Hfields Hc Hp Hf Hf1 Henc.
  split.
  - apply Fields_formatWords_from. rewrite Forall_forall in *. auto.
  - assert (wordsList <> []) as Hwl.
    { intros ->. destruct words as [|word words]; [done|].
      apply Forall_cons in Hall as [Hin _]. by apply elem_of_nil in Hin. }
    destruct (New_plaintext_only_migrates P wordsList c p w content blob)
      as (w' & HNew & Hdisk & _); try done.
    + by rewrite Hfields.
    + rewrite Hfields. by apply Forall_forall.
    + by rewrite Hfields.
    + by exists w'.
Qed.

Lemma X12_layout_is_normalised_witness :
  exists w',
    WordKey.New sealP testWordsList "key.dat" "key.txt"
      (world_of (<["key.txt" := WordKey.formatWords testWordsList]> ∅))
    = Returns ("", None) w'
    /\ disk w' = <["key.dat" := String "!" (Join testWordsList " ")]>
                   (<["key.txt" := WordKey.formatWords testWordsList]> ∅).
Proof.
  destruct (X12_layout_is_normalised sealP testWordsList "key.dat" "key.txt"
              (world_of (<["key.txt" := WordKey.formatWords testWordsList]> ∅))
              testWordsList (WordKey.formatWords testWordsList)
              (String "!" (Join testWordsList " "))) as [_ H].
  - apply Forall_forall. intros x Hx. apply list_elem_of_In in Hx. simpl in Hx.
    repeat (destruct Hx as [<-|Hx]; [vm_compute; reflexivity|]). done.
  - reflexivity.
  - apply Forall_forall. auto.
  - vm_compute. reflexivity.
  - vm_compute. reflexivity.
  - vm_compute. reflexivity.
  - reflexivity.
  - reflexivity.
  - vm_compute. reflexivity.
  - exact H.
Defined.

(** ** The two results of [AccessKey] *)

(** X13.  What the [(bool, string)] of [AccessKey] tells.  The flag is
    [true] exactly with the message "decryption key loaded", and then
    the key decrypted from [key.dat] is in [secureKey].  The empty
    message comes back only after a successful generation on an
    empty disk state: the new key, 32 characters of the pool, is then in
    [key.txt], encrypted in [key.dat], and written to the log between
    two rules, but it is not returned and not loaded, and the flag is
    [false] as it is for every failure. *)
Theorem X13_AccessKey_results :
  forall P w flag message w',
    AccessMsg.AccessKey P w = Returns (flag, message) w' ->
    (flag = true <-> message = AccessMsg.MsgKeyLoaded)
    /\ (message = AccessMsg.MsgKeyLoaded -> loaded_from P "key.dat" "key.txt" w w')
    /\ (message = AccessMsg.MsgEmpty ->
        custody (disk w) "key.dat" "key.txt" = Empty
        /\ secureKey w' = secureKey w
        /\ exists words blob,
             String.length words = 32%nat
             /\ Forall (fun c => c ∈ list_ascii_of_string charPool)
                       (list_ascii_of_string words)
             /\ CryptProtectData P (blob_bytes words) = Some blob
             /\ disk w' = <["key.dat" := blob]> (<["key.txt" := words]> (disk w))
             /\ trace w' = trace w ++ [EvStat "key.dat"; EvStat "key.txt";
                                       EvWriteFile "key.txt" words; EvReadFile "key.txt";
                                       EvWriteFile "key.dat" blob;
                                       EvLog AccessMsg.banner; EvLog AccessMsg.rule;
                                       EvLog words; EvLog AccessMsg.rule]).
Proof.
  intros P w flag message w' H.
  destruct (disk w !! "key.dat") as [blob|] eqn:Hc;
    destruct (disk w !! "key.txt") as [content|] eqn:Hp.
  - rewrite AccessMsg_both in H by (rewrite ?Hc, ?Hp; eauto).
    injection H as <- <- <-. split; [done|]. split; discriminate.
  - rewrite (AccessMsg_cipher_path P w blob) in H by done. cbv zeta in H.
    destruct (next_fault w); [|destruct blob as [|a blob];
      [|destruct (CryptUnprotectData P _) as [key|] eqn:Hdec]];
      try discriminate; injection H as <- <- <-;
      (split; [done|]); (split; [|discriminate]); try discriminate.
    intros _. exists (String a blob), key. done.
  - destruct content as [|a content].
    + rewrite AccessMsg_empty_plaintext in H by done. cbv zeta in H.
      destruct (next_fault w); [|discriminate].
      injection H as <- <- <-. split; [done|]. split; discriminate.
    + rewrite (AccessMsg_plaintext_path P w (String a content)) in H by done.
      cbv zeta in H.
      destruct (next_fault w);
        [|destruct (CryptProtectData P _); [destruct (next_fault _)|]];
        injection H as <- <- <-; (split; [done|]); split; discriminate.
  - destruct (AccessMsg_empty_path P w Hc Hp)
      as [(w'' & Hpanic & _)|(words & Hlen & Hall & HAcc)].
    { rewrite Hpanic in H. discriminate. }
    cbv zeta in HAcc. rewrite HAcc in H. clear HAcc.
    destruct (next_fault w); [|destruct (next_fault _);
      [|destruct (CryptProtectData P _) as [enc|] eqn:Henc; [destruct (next_fault _)|]]];
      injection H as <- <- <-; (split; [done|]); (split; [discriminate|]);
      try discriminate.
    intros _. split; [by apply custody_Empty|]. split; [reflexivity|].
    exists words, enc. split; [done|]. split; [done|]. split; [done|].
    split; [reflexivity|]. simpl. by rewrite <- !app_assoc.
Qed.

Lemma X13_AccessKey_results_witness :
  exists w',
    AccessMsg.AccessKey sealP empty_world = Returns (false, AccessMsg.MsgEmpty) w'
    /\ secureKey w' = None.
Proof.
  eexists.
  assert (AccessMsg.AccessKey sealP empty_world = Returns (false, AccessMsg.MsgEmpty) _)
    as H by (vm_compute; reflexivity).
  split; [exact H|].
  destruct (X13_AccessKey_results sealP empty_world _ _ _ H) as (_ & _ & H3).
  destruct (H3 eq_refl) as (_ & Hk & _). exact Hk.
Defined.

(** ** [selectRandomWords] *)

Lemma selected_at_size wordsList indices selectedWords usedIndices :
  selected_at wordsList indices selectedWords usedIndices ->
  size usedIndices = length selectedWords.
Proof.
  intros (Hnd & -> & _ & Hall). rewrite size_list_to_set by done.
  by eapply Forall2_length.
Qed.

Lemma drawn_indices_S stream len k fuel :
  drawn_indices stream len k (S fuel)
  = {[ (Z.of_N (stream k) mod Z.of_nat len)%Z ]} ∪ drawn_indices stream len (S k) fuel.
Proof. reflexivity. Qed.

Lemma select_loop_spec P wordsList fuel :
  (24 <= length wordsList)%nat ->
  forall selectedWords usedIndices indices w,
    selected_at wordsList indices selectedWords usedIndices ->
    (length selectedWords <= 24)%nat ->
    exists o w',
      select_loop P wordsList fuel selectedWords usedIndices w = Returns o w'
      /\ (is_Some o
          <-> (24 <= size (usedIndices
                           ∪ drawn_indices (math_rand P) (length wordsList)
                               (draws w) fuel))%nat)
      /\ forall words,
           o = Some words ->
           length words = 24%nat
           /\ exists indices' used', selected_at wordsList indices' words used'.
Proof.
  intros Hwl. induction fuel as [|fuel IH];
    intros selectedWords usedIndices indices w Hinv Hle;
    pose proof (selected_at_size _ _ _ _ Hinv) as Hsize.
  - cbn [select_loop]. destruct (Nat.ltb_spec (length selectedWords) 24) as [Hlt|Hge].
    + exists None, w. split; [done|]. split; [|done].
      unfold drawn_indices. simpl. rewrite (right_id_L ∅ (∪)).
      split; [by intros [? ?] | lia].
    + exists (Some selectedWords), w. split; [done|]. split.
      * split; [intros _ | by eauto].
        etrans; [|apply subseteq_size, union_subseteq_l]. lia.
      * intros words [= <-]. split; [lia | eauto].
  - cbn [select_loop]. destruct (Nat.ltb_spec (length selectedWords) 24) as [Hlt|Hge].
    2:{ exists (Some selectedWords), w. split; [done|]. split.
        - split; [intros _ | by eauto].
          etrans; [|apply subseteq_size, union_subseteq_l]. lia.
        - intros words [= <-]. split; [lia | eauto]. }
    unfold bind at 1. unfold Intn.
    destruct (Z.leb_spec (Z.of_nat (length wordsList)) 0); [lia|].
    set (i := (Z.of_N (math_rand P (draws w)) mod Z.of_nat (length wordsList))%Z).
    assert (0 <= i < Z.of_nat (length wordsList))%Z as Hi
      by (apply Z.mod_pos_bound; lia).
    rewrite drawn_indices_S. fold i.
    destruct (decide (i ∈ usedIndices)) as [Hused|Hfresh].
    + destruct (IH selectedWords usedIndices indices (set_draws (S (draws w)) w) Hinv Hle)
        as (o & w' & Hrun & Hiff & Hres).
      exists o, w'. split; [done|]. split; [|done].
      rewrite Hiff. simpl draws.
      rewrite (assoc_L (∪)), (comm_L (∪) usedIndices {[i]}).
      rewrite (subseteq_union_1_L {[i]} usedIndices) by (by apply singleton_subseteq_l).
      done.
    + unfold bind at 1. unfold word_at, index. rewrite Z_N_nat.
      destruct (wordsList !! Z.to_nat i) as [word|] eqn:E.
      2:{ apply lookup_ge_None in E. lia. }
      unfold ret at 1.
      assert (selected_at wordsList (indices ++ [i]) (selectedWords ++ [word])
                          ({[i]} ∪ usedIndices)) as Hinv'.
      { destruct Hinv as (Hnd & -> & Hpos & Hall). split; [|split; [|split]].
        - apply NoDup_app. split; [done|]. split; [|apply NoDup_singleton].
          intros x Hx ->%list_elem_of_singleton. apply Hfresh.
          by apply elem_of_list_to_set.
        - rewrite list_to_set_app_L. simpl.
          by rewrite (right_id_L ∅ (∪)), (comm_L (∪)).
        - apply Forall_app. split; [done|]. constructor; [lia | constructor].
        - apply Forall2_app; [done|]. by constructor. }
      destruct (IH (selectedWords ++ [word]) ({[i]} ∪ usedIndices) (indices ++ [i])
                  (set_draws (S (draws w)) w) Hinv')
        as (o & w' & Hrun & Hiff & Hres).
      { rewrite length_app. simpl. lia. }
      exists o, w'. split; [done|]. split; [|done].
      rewrite Hiff. simpl draws.
      by rewrite (assoc_L (∪)), (comm_L (∪) usedIndices {[i]}).
Qed.

Lemma selected_at_NoDup wordsList indices selectedWords usedIndices :
  NoDup wordsList ->
  selected_at wordsList indices selectedWords usedIndices ->
  NoDup selectedWords.
Proof.
  intros Hnd (Hidx & _ & Hpos & Hall). clear usedIndices.
  induction Hall as [|i word indices words Hi Hall IH]; [constructor|].
  apply NoDup_cons in Hidx as [Hnotin Hidx].
  apply Forall_cons in Hpos as [Hi0 Hpos].
  constructor; [|by apply IH].
  intros Hin. apply list_elem_of_lookup in Hin as [k Hk].
  destruct (Forall2_lookup_r _ _ _ _ _ Hall Hk) as (j & Hj & Hjw).
  pose proof (NoDup_lookup _ _ _ _ Hnd Hi Hjw) as Heq.
  assert (0 <= j)%Z as Hj0.
  { rewrite Forall_forall in Hpos. apply Hpos. by eapply list_elem_of_lookup_2. }
  assert (i = j) as -> by lia.
  apply Hnotin. by eapply list_elem_of_lookup_2.
Qed.

(** X14.  [selectRandomWords].  With fewer than 24 words it returns its
    error and draws nothing.  With 24 words or more it never panics; it
    leaves its loop within [fuel] draws exactly when those draws fall on
    at least 24 different indices of the list (one value drawn over and
    over keeps it looping for ever), and the words it then returns are
    24 entries of the list taken at distinct indices: no two are equal
    when the list has no duplicates. *)
Theorem X14_selectRandomWords :
  forall P stream fuel wordsList w,
    ((length wordsList < 24)%nat ->
     selectRandomWords P stream fuel wordsList w
     = Returns (Some (TooFewWords (length wordsList))) w)
    /\ ((24 <= length wordsList)%nat ->
        exists o w',
          selectRandomWords P stream fuel wordsList w = Returns o w'
          /\ (is_Some o
              <-> (24 <= size (drawn_indices stream (length wordsList) (draws w) fuel))%nat)
          /\ forall s,
               o = Some s ->
               exists selectedWords,
                 s = Selected selectedWords
                 /\ length selectedWords = 24%nat
                 /\ Forall (fun word => word ∈ wordsList) selectedWords
                 /\ (NoDup wordsList -> NoDup selectedWords)).
Proof.
  intros P stream fuel wordsList w. unfold selectRandomWords. split.
  - intros Hlt. apply Nat.ltb_lt in Hlt. by rewrite Hlt.
  - intros Hge. pose proof Hge as Hnlt. apply Nat.ltb_ge in Hnlt. rewrite Hnlt.
    destruct (select_loop_spec (reseeded P stream) wordsList fuel Hge [] ∅ [] w)
      as (o & w' & Hrun & Hiff & Hres).
    { split; [constructor|]. split; [done|]. split; constructor. }
    { simpl. lia. }
    unfold bind. rewrite Hrun. unfold ret.
    exists (Selected <$> o), w'. split; [done|]. split.
    + rewrite fmap_is_Some, Hiff. simpl math_rand. by rewrite (left_id_L ∅ (∪)).
    + intros s Hs. destruct o as [words|]; [|discriminate].
      injection Hs as <-. destruct (Hres words eq_refl) as (Hlen & idx & used & Hsel).
      exists words. split; [done|]. split; [done|]. split.
      * destruct Hsel as (_ & _ & _ & Hall). apply Forall_forall.
        intros word [k Hk]%list_elem_of_lookup.
        destruct (Forall2_lookup_r _ _ _ _ _ Hall Hk) as (j & _ & Hj).
        by eapply list_elem_of_lookup_2.
      * intros Hnd. by eapply selected_at_NoDup.
Qed.

Lemma X14_selectRandomWords_witness :
  selectRandomWords sealP (fun n => N.of_nat n) 0 ["one"; "two"] empty_world
  = Returns (Some (TooFewWords 2)) empty_world
  /\ exists o w',
       selectRandomWords sealP (fun n => N.of_nat n) 24 testWordsList empty_world
       = Returns o w'
       /\ is_Some o.
Proof.
  split.
  - destruct (X14_selectRandomWords sealP (fun n => N.of_nat n) 0 ["one"; "two"]
                empty_world) as [H _].
    apply H. simpl. lia.
  - destruct (X14_selectRandomWords sealP (fun n => N.of_nat n) 24 testWordsList
                empty_world) as [_ H].
    destruct H as (o & w' & Hrun & Hiff & _); [simpl; lia|].
    exists o, w'. split; [exact Hrun|]. apply Hiff. vm_compute. lia.
Defined.

(** ** The shape of the formatted words *)

Lemma string_length_app (a b : string) :
  String.length (a +:+ b) = (String.length a + String.length b)%nat.
Proof. induction a as [|c a IH]; simpl; [done | by rewrite IH]. Qed.

Lemma count_newlines_app (a b : string) :
  count_newlines (a +:+ b) = (count_newlines a + count_newlines b)%nat.
Proof. induction a as [|c a IH]; simpl; [done | rewrite IH; lia]. Qed.

Lemma div6_succ i :
  (S i / 6 = i / 6 + (if ((i + 1) mod 6 =? 0)%nat then 1 else 0))%nat.
Proof.
  pose proof (Nat.div_mod_eq i 6) as Hi.
  pose proof (Nat.mod_upper_bound i 6 ltac:(lia)) as Hr.
  pose proof (Nat.div_mod_eq (i + 1) 6) as Hi1.
  pose proof (Nat.mod_upper_bound (i + 1) 6 ltac:(lia)) as Hr1.
  replace (S i) with (i + 1)%nat by lia.
  destruct (Nat.eqb_spec ((i + 1) mod 6) 0) as [H0|H0]; lia.
Qed.

Lemma formatWords_from_shape i words :
  String.length (WordKey.formatWords_from i words)
  = (total_length words + length words)%nat
  /\ (Forall (fun word => count_newlines word = 0%nat) words ->
      (count_newlines (WordKey.formatWords_from i words) + i / 6
       = (i + length words) / 6)%nat).
Proof.
  revert i. induction words as [|word rest IH]; intros i.
  - simpl. split; [done|]. intros _. by rewrite Nat.add_0_r.
  - cbn [WordKey.formatWords_from]. destruct (IH (S i)) as [IHlen IHcount]. split.
    + rewrite !string_length_app, IHlen. simpl total_length. simpl length.
      destruct ((i + 1) mod 6 =? 0)%nat; simpl; lia.
    + intros [Hword Hrest]%Forall_cons. specialize (IHcount Hrest).
      rewrite !count_newlines_app, Hword. simpl length.
      replace (i + S (length rest))%nat with (S i + length rest)%nat by lia.
      rewrite <- IHcount, div6_succ.
      destruct ((i + 1) mod 6 =? 0)%nat; simpl; lia.
Qed.

Lemma formatWords_from_last i words :
  words <> [] ->
  exists body,
    WordKey.formatWords_from i words
    = body +:+ (if ((i + length words) mod 6 =? 0)%nat then String "010" "" else " ").
Proof.
  revert i. induction words as [|word rest IH]; intros i Hne; [done|].
  cbn [WordKey.formatWords_from]. destruct rest as [|word' rest].
  - exists word. cbn [WordKey.formatWords_from length]. by rewrite string_app_nil_r.
  - destruct (IH (S i) ltac:(done)) as [body Hbody]. rewrite Hbody.
    exists (word +:+ (if ((i + 1) mod 6 =? 0)%nat then String "010" "" else " ") +:+ body).
    replace (i + length (word :: word' :: rest))%nat
      with (S i + length (word' :: rest))%nat by (simpl; lia).
    by rewrite !string_app_assoc.
Qed.

(** X15.  The shape of what [formatWords] returns.  Each word is
    followed by exactly one separator byte, the last one too, so the
    formatted string is as long as the words together plus their
    number; it ends in a line break when the number of words is a
    multiple of six and in a space otherwise; and when no word holds a
    line break, it has one line break for every six words: 4 for the 24
    words of a key. *)
Theorem X15_formatWords_shape :
  forall words,
    String.length (WordKey.formatWords words) = (total_length words + length words)%nat
    /\ (Forall (fun word => count_newlines word = 0%nat) words ->
        count_newlines (WordKey.formatWords words) = (length words / 6)%nat)
    /\ (words <> [] ->
        exists body,
          WordKey.formatWords words
          = body +:+ (if (length words mod 6 =? 0)%nat then String "010" "" else " ")).
Proof.
  intros words. unfold WordKey.formatWords.
  destruct (formatWords_from_shape 0 words) as [Hlen Hcount].
  split; [done|]. split.
  - intros Hall. specialize (Hcount Hall).
    change (0 / 6)%nat with 0%nat in Hcount.
    by rewrite Nat.add_0_r, Nat.add_0_l in Hcount.
  - intros Hne. by apply (formatWords_from_last 0).
Qed.

Lemma X15_formatWords_shape_witness :
  count_newlines (WordKey.formatWords testWordsList) = 4%nat.
Proof.
  destruct (X15_formatWords_shape testWordsList) as (_ & H & _).
  rewrite H; [reflexivity|].
  apply Forall_forall. intros x Hx. apply list_elem_of_In in Hx. simpl in Hx.
  repeat (destruct Hx as [<-|Hx]; [reflexivity|]). done.
Defined.

(** ** Reading the loaded key *)

(** X16.  With a key loaded, [GetKey] of either generation returns the
    bytes of the key and leaves the buffer sealed again, whether it was
    sealed or melted before; nothing else changes, so a second [GetKey]
    returns the same bytes from the same state. *)
Theorem X16_GetKey_repeatable :
  forall w b,
    secureKey w = Some b ->
    let sealed := set_secureKey (Some (mkBuffer (buf_bytes b) false)) w in
    WordKey.GetKey w = Returns (buf_bytes b, None) sealed
    /\ WordKey.GetKey sealed = Returns (buf_bytes b, None) sealed
    /\ AccessMsg.GetKey w = Returns (Some (buf_bytes b), None) sealed
    /\ AccessMsg.GetKey sealed = Returns (Some (buf_bytes b), None) sealed
    /\ disk sealed = disk w /\ trace sealed = trace w.
Proof.
  intros w b H sealed.
  split; [by apply WordKey_GetKey_loaded|].
  split; [by rewrite (WordKey_GetKey_loaded sealed (mkBuffer (buf_bytes b) false))|].
  split; [by apply AccessMsg_GetKey_loaded|].
  split; [by rewrite (AccessMsg_GetKey_loaded sealed (mkBuffer (buf_bytes b) false))|].
  done.
Qed.

Lemma X16_GetKey_repeatable_witness :
  WordKey.GetKey (set_secureKey (Some (mkBuffer "dummy-key" true)) empty_world)
  = Returns ("dummy-key", None)
      (set_secureKey (Some (mkBuffer "dummy-key" false)) empty_world).
Proof.
  destruct (X16_GetKey_repeatable
              (set_secureKey (Some (mkBuffer "dummy-key" true)) empty_world)
              (mkBuffer "dummy-key" true) eq_refl) as [H _].
  exact H.
Defined.
